(** * Kronos.RateLimiter: a shallow embedding of the sliding-window limiter

    Source: [src/src/Kronos.py], class [RateLimiter] (lines 300-357).

    The limiter keeps a ledger of admission instants.  [acquire] reads the
    clock, drops the expired entries, sleeps when the ledger is full and
    finally appends the instant it read at the start.

    Modelling choices.
    - A [datetime] is its number of microseconds since [datetime.min]; a
      [timedelta] is a number of microseconds.  Both are [Z].  A duration
      in seconds ([total_seconds()], the argument of [time.sleep]) is kept
      as the same microsecond count, i.e. a fixed-point number with six
      decimals; binary floating point is outside the model.
    - Exceptions are a [Raise] result.  The primitives that can raise in
      [acquire] are list indexing, [pop] and [time.sleep].
    - The process environment is a [World]: the clock read by
      [datetime.now()] and the trace of logger and sleep calls.
      [time.sleep d] moves the clock forward by [d].
    - In [acquire], the statements of lines 330-356, arithmetic on instants
      is exact integer arithmetic.  [acquire_full] is the whole method
      (lines 328-357): it adds the calendar range of [datetime] (years 1 to
      9999), the day range of [timedelta], the longest sleep that
      [time.sleep] accepts, and the value returned by line 357.
    - [with self._lock] makes the body of [acquire] atomic, so concurrent
      callers are a sequence of calls; the idle time before each call is an
      input of [run].

    The second part of the file covers the [Logger] of the same source
    file (lines 6-297): the level filter, the console and file output, the
    HTTP helpers, and the way the limiter uses its logger; and
    [_convert_level] of the packaged logger ([src/kronos/logger.py]). *)

From stdpp Require Import base list numbers sorting.
From Stdlib Require Import ZArith Lia.
From stdpp Require Import strings gmap pretty.
From Stdlib Require Import QArith Qround Ascii.

Local Open Scope Z_scope.

(** ** Python runtime primitives *)

Module Py.

Inductive exn : Set :=
| IndexError
| ValueError
| OverflowError.

Inductive result (A : Type) : Type :=
| Ok (a : A)
| Raise (e : exn).
Global Arguments Ok {A} a.
Global Arguments Raise {A} e.

(** [datetime] and [timedelta], in microseconds. *)
Abbreviation datetime := Z (only parsing).
Abbreviation timedelta := Z (only parsing).

(** [timedelta(seconds=s)] for an [int] [s]. *)
Definition timedelta_seconds (s : Z) : timedelta := s * 1000000.

(** [d.total_seconds()], kept in microseconds. *)
Definition total_seconds (d : timedelta) : Z := d.

(** [enumerate(l)]. *)
Fixpoint enumerate_from {A} (i : nat) (l : list A) : list (nat * A) :=
  match l with
  | [] => []
  | x :: l' => (i, x) :: enumerate_from (S i) l'
  end.
Definition enumerate {A} (l : list A) : list (nat * A) := enumerate_from 0 l.

(** [sorted(l, reverse=True)] on indices: a stable descending sort. *)
Fixpoint insert_desc (x : nat) (l : list nat) : list nat :=
  match l with
  | [] => [x]
  | y :: l' => if (y <? x)%nat then x :: l else y :: insert_desc x l'
  end.
Definition sorted_reverse (l : list nat) : list nat :=
  foldl (fun acc x => insert_desc x acc) [] l.

(** [l.pop(i)] for [0 <= i]: raises [IndexError] out of range.  The
    popped value is dropped, as the caller does. *)
Definition pop {A} (i : nat) (l : list A) : result (list A) :=
  if bool_decide (i < length l)%nat then Ok (delete i l) else Raise IndexError.

(** [l[i]] for [0 <= i]. *)
Definition getitem {A} (l : list A) (i : nat) : result A :=
  match l !! i with
  | Some x => Ok x
  | None => Raise IndexError
  end.

End Py.
Import Py.

(** ** The limiter object and the world *)

(** [self._timestamps] is either a built-in [list] (threading mode) or a
    [multiprocessing.Manager().list()] proxy; [isinstance(_, list)] tells
    them apart. *)
Inductive Ledger : Set :=
| PyList (l : list datetime)
| ListProxy (l : list datetime).

Definition items (t : Ledger) : list datetime :=
  match t with PyList l | ListProxy l => l end.

Definition isinstance_list (t : Ledger) : bool :=
  match t with PyList _ => true | ListProxy _ => false end.

Inductive LockKind : Set := ThreadingLock | ManagerLock.

Record RateLimiter : Set := mkRateLimiter {
  _limit : Z;
  _time_period : Z;
  _lock : LockKind;
  _timestamps : Ledger
}.

(** What the limiter does to its collaborators: the two logger calls and
    [time.sleep]. *)
Inductive event : Set :=
| LogInfo (limit time_period : Z)
| LogDebug (wait_time : Z)
| Sleep (wait_time : Z).

Record World : Set := mkWorld {
  clock : datetime;
  events : list event
}.

(** ** A state-and-exception monad over the object and the world *)

Definition St : Set := RateLimiter * World.
Definition M (A : Type) : Type := St -> result (A * St).

Definition ret {A} (a : A) : M A := fun s => Ok (a, s).
Definition bind {A B} (k : A -> M B) (m : M A) : M B :=
  fun s => match m s with
           | Ok (a, s') => k a s'
           | Raise e => Raise e
           end.
Definition lift {A} (r : result A) : M A :=
  fun s => match r with Ok a => Ok (a, s) | Raise e => Raise e end.

(** stdpp's monad notations: [x ← m; k] and [m;; k]. *)
#[global] Instance M_ret : MRet M := @ret.
#[global] Instance M_bind : MBind M := @bind.

Fixpoint for_each {A} (l : list A) (body : A -> M unit) : M unit :=
  match l with
  | [] => ret tt
  | x :: l' => body x;; for_each l' body
  end.

(** Field reads and writes on [self]. *)
Definition get_limit : M Z := fun s => Ok (_limit (fst s), s).
Definition get_time_period : M Z := fun s => Ok (_time_period (fst s), s).
Definition get_timestamps : M Ledger := fun s => Ok (_timestamps (fst s), s).
Definition set_timestamps (t : Ledger) : M unit :=
  fun s => Ok (tt, (mkRateLimiter (_limit (fst s)) (_time_period (fst s))
                                  (_lock (fst s)) t, snd s)).

(** [datetime.now()]. *)
Definition datetime_now : M datetime := fun s => Ok (clock (snd s), s).

Definition emit (e : event) : M unit :=
  fun s => Ok (tt, (fst s, mkWorld (clock (snd s)) (events (snd s) ++ [e]))).

(** [time.sleep(d)]: [ValueError] on a negative length, otherwise the
    caller is suspended for [d]. *)
Definition time_sleep (d : Z) : M unit :=
  fun s =>
    if d <? 0 then Raise ValueError
    else Ok (tt, (fst s, mkWorld (clock (snd s) + d) (events (snd s) ++ [Sleep d]))).

(** In-place operations on [self._timestamps]. *)
Definition timestamps_pop (i : nat) : M unit :=
  t ← get_timestamps;
  l' ← lift (pop i (items t));
  set_timestamps (match t with PyList _ => PyList l' | ListProxy _ => ListProxy l' end).

Definition timestamps_append (x : datetime) : M unit :=
  t ← get_timestamps;
  set_timestamps (match t with
                  | PyList l => PyList (l ++ [x])
                  | ListProxy l => ListProxy (l ++ [x])
                  end).

(** ** [RateLimiter.__init__] (lines 305-326) *)

Definition __init__ (limit time_period : Z) (multiprocessing_mode : bool)
  (w : World) : result (RateLimiter * World) :=
  let self :=
    if multiprocessing_mode
    then mkRateLimiter limit time_period ManagerLock (ListProxy [])
    else mkRateLimiter limit time_period ThreadingLock (PyList []) in
  match emit (LogInfo limit time_period) (self, w) with
  | Ok (_, s) => Ok s
  | Raise e => Raise e
  end.

(** ** [RateLimiter.acquire] (lines 328-357) *)

(** Lines 333-345: drop the expired entries. *)
Definition acquire_prune (now : datetime) : M unit :=
  t ← get_timestamps;
  time_period ← get_time_period;
  if isinstance_list t then
    set_timestamps
      (PyList (filter (fun ts => now - ts < timedelta_seconds time_period) (items t)))
  else
    let expired_indices :=
      foldl (fun acc '(i, ts) =>
               if bool_decide (now - ts >= timedelta_seconds time_period)
               then acc ++ [i] else acc)
            [] (enumerate (items t)) in
    for_each (sorted_reverse expired_indices) timestamps_pop.

(** Lines 347-354: wait when the ledger is full. *)
Definition acquire_wait (now : datetime) : M unit :=
  t ← get_timestamps;
  limit ← get_limit;
  time_period ← get_time_period;
  if bool_decide (Z.of_nat (length (items t)) >= limit) then
    if bool_decide (Z.of_nat (length (items t)) > 0) then
      oldest ← lift (getitem (items t) 0);
      let wait_time := total_seconds (oldest + timedelta_seconds time_period - now) in
      if bool_decide (wait_time > 0) then
        emit (LogDebug wait_time);;
        time_sleep wait_time
      else ret tt
    else ret tt
  else ret tt.

(** Lines 330-356: the statements run under the lock, in exact integer
    time.  The value returned by line 357 is in [acquire_full]. *)
Definition acquire : M unit :=
  now ← datetime_now;
  acquire_prune now;;
  acquire_wait now;;
  timestamps_append now.

(** *** The whole method, with the ranges of the standard library *)

(** [datetime.max], 9999-12-31 23:59:59.999999, in microseconds since
    [datetime.min]. *)
Definition datetime_max : Z := 3652059 * 86400 * 1000000 - 1.

(** The longest sleep that CPython accepts, [2^63 - 1] nanoseconds, in
    whole microseconds. *)
Definition sleep_max : Z := (2 ^ 63 - 1) / 1000.

(** [timedelta(seconds=s)]: [OverflowError] when the number of days,
    [s // 86400], has a magnitude above 999999999. *)
Definition timedelta_checked (s : Z) : result timedelta :=
  if bool_decide (-999999999 <= s / 86400 <= 999999999)
  then Ok (timedelta_seconds s) else Raise OverflowError.

(** [t + d] on a [datetime]: [OverflowError] outside the calendar. *)
Definition datetime_add (t : datetime) (d : timedelta) : result datetime :=
  if bool_decide (0 <= t + d <= datetime_max) then Ok (t + d) else Raise OverflowError.

(** [time.sleep(d)], with its upper limit. *)
Definition time_sleep_checked (d : Z) : M unit :=
  fun s => if bool_decide (sleep_max < d) then Raise OverflowError else time_sleep d s.

(** Lines 328-357.  The comprehension of line 335 and the loop of lines
    339-341 build [timedelta(seconds=self._time_period)] once for each
    entry, so an empty ledger builds none. *)
Definition acquire_full : M bool :=
  now ← datetime_now;
  t ← get_timestamps;
  time_period ← get_time_period;
  match items t with
  | [] => mret tt
  | _ :: _ => lift (timedelta_checked time_period);; mret tt
  end;;
  acquire_prune now;;
  t ← get_timestamps;
  limit ← get_limit;
  (if bool_decide (Z.of_nat (length (items t)) >= limit) then
     if bool_decide (Z.of_nat (length (items t)) > 0) then
       oldest ← lift (getitem (items t) 0);
       period ← lift (timedelta_checked time_period);
       window_end ← lift (datetime_add oldest period);
       let wait_time := total_seconds (window_end - now) in
       if bool_decide (wait_time > 0) then
         emit (LogDebug wait_time);;
         time_sleep_checked wait_time
       else mret tt
     else mret tt
   else mret tt);;
  timestamps_append now;;
  mret true.

(** ** Runs: a sequence of serialised calls *)

(** Time that passes outside [acquire] before a call. *)
Definition idle (delay : Z) : M unit :=
  fun s => Ok (tt, (fst s, mkWorld (clock (snd s) + delay) (events (snd s)))).

Fixpoint run (delays : list Z) : M unit :=
  match delays with
  | [] => ret tt
  | d :: ds => idle d;; acquire;; run ds
  end.


(** ** Functions used to state what [acquire] computes *)

(** The entries that survive pruning at instant [now]. *)
Definition kept (now : datetime) (time_period : Z) (l : list datetime) : list datetime :=
  filter (fun ts => now - ts < timedelta_seconds time_period) l.

(** A ledger of the same kind with other contents. *)
Definition with_items (t : Ledger) (l : list datetime) : Ledger :=
  match t with PyList _ => PyList l | ListProxy _ => ListProxy l end.

Definition with_timestamps (self : RateLimiter) (t : Ledger) : RateLimiter :=
  mkRateLimiter (_limit self) (_time_period self) (_lock self) t.

(** The indices collected by the loop of lines 339-341, counted from [i]. *)
Fixpoint expired_from (now : datetime) (time_period : Z) (i : nat)
  (l : list datetime) : list nat :=
  match l with
  | [] => []
  | ts :: l' =>
      if bool_decide (now - ts >= timedelta_seconds time_period)
      then i :: expired_from now time_period (S i) l'
      else expired_from now time_period (S i) l'
  end.

(** Successive [pop]s on a plain list. *)
Fixpoint pops {A} (js : list nat) (l : list A) : result (list A) :=
  match js with
  | [] => Ok l
  | i :: js' => match pop i l with
                | Ok l' => pops js' l'
                | Raise e => Raise e
                end
  end.

(** The length of the sleep of lines 350-354, when there is one. *)
Definition wait_of (limit time_period : Z) (now : datetime)
  (pruned : list datetime) : option Z :=
  match pruned with
  | [] => None
  | oldest :: _ =>
      if bool_decide (Z.of_nat (length pruned) >= limit
                      ∧ oldest + timedelta_seconds time_period - now > 0)
      then Some (oldest + timedelta_seconds time_period - now)
      else None
  end.

Definition after_wait (w : World) (d : option Z) : World :=
  match d with
  | Some d => mkWorld (clock w + d) (events w ++ [LogDebug d; Sleep d])
  | None => w
  end.

(** The number of entries of [l] inside the window [[a, a + T)]. *)
Definition window_count (time_period : Z) (a : datetime) (l : list datetime) : nat :=
  length (filter (fun ts => a <= ts < a + timedelta_seconds time_period) l).

(** The order invariant: entries ascending and none later than the clock. *)
Definition ledger_in_order (s : St) : Prop :=
  StronglySorted Z.le (items (_timestamps (fst s)))
  /\ Forall (fun ts => ts <= clock (snd s)) (items (_timestamps (fst s))).

(** Normal operation: the period is a representable [timedelta] and, for
    every recorded instant, the end of its window is inside the calendar and
    not further from the clock than the longest sleep. *)
Definition normal_operation (s : St) : Prop :=
  -999999999 <= _time_period (fst s) / 86400 <= 999999999
  /\ Forall (fun ts =>
               0 <= ts + timedelta_seconds (_time_period (fst s)) <= datetime_max
               /\ ts + timedelta_seconds (_time_period (fst s)) - clock (snd s)
                  <= sleep_max)
            (items (_timestamps (fst s))).

(** 2026-01-01 00:00:00, as a clock reading for the examples. *)
Definition new_year_2026 : datetime := 739616 * 86400 * 1000000.

(** The time spent outside [acquire] over a run. *)
Definition total_delay (delays : list Z) : Z := foldr Z.add 0 delays.

(** ** [Logger] (lines 6-297) *)

(** The logger writes to [sys.stdout] and, when it has a file handler, to
    the handler's stream.  What is written is kept as a list of chunks: a
    chunk is one [print(x)] or one [stream.write(x + "\n")].  The text of
    [json.dumps(payload, indent=2)] is not computed: the chunk records the
    payload.  What the interpreter supplies to a call (the clock rendered
    by [strftime], the caller's frame, the process and thread, the pending
    exception and its formatted traceback, the text of a float number of
    seconds given here in microseconds, [os.path.join]) is an [Env] given
    with the call. *)

Module Logger.

(** Lines 13-18. *)
Definition CRITICAL : Z := 50.
Definition ERROR : Z := 40.
Definition WARNING : Z := 30.
Definition INFO : Z := 20.
Definition DEBUG : Z := 10.
Definition NOTSET : Z := 0.

(** Lines 21-28. *)
Definition LEVEL_NAMES : gmap Z string :=
  <[CRITICAL := "CRITICAL"]> (<[ERROR := "ERROR"]> (<[WARNING := "WARNING"]>
  (<[INFO := "INFO"]> (<[DEBUG := "DEBUG"]> (<[NOTSET := "NOTSET"]> ∅))))).

(** [msg: Union[str, Exception]]; an exception is its class name and its
    [str()]. *)
Inductive Msg : Set :=
| Str (s : string)
| Exc (type_name text : string).

Record Env : Set := mkEnv {
  strftime : string -> string;
  frame_module : string;
  frame_filename : string;
  frame_lineno : Z;
  current_process_name : string;
  current_thread_name : string;
  getpid : Z;
  exc_info : option (string * string);
  format_exception : string -> string -> string;
  str_seconds : Z -> string;
  os_path_join : string -> string -> string
}.

Inductive exn : Set :=
| AttributeError (name : string)
| ValueError (text : string)
| IndexError.

Inductive outcome (A : Type) : Type :=
| Returns (a : A)
| Raises (e : exn).
Global Arguments Returns {A} a.
Global Arguments Raises {A} e.

Section WithAny.
Variable Any : Type.

(** [Optional[Dict[str, Any]]]. *)
Definition Payload : Type := option (gmap string Any).

(** Truth value of a payload: [None] and the empty dict are false. *)
Definition truthy (p : Payload) : bool :=
  match p with
  | None => false
  | Some d => negb (bool_decide (size d = 0%nat))
  end.

Inductive chunk : Type :=
| Line (s : string)
| JsonLine (d : gmap string Any).

Record FileHandler : Type := mkFileHandler {
  baseFilename : string;
  stream : list chunk
}.

Record t : Type := mk {
  level : Z;
  log_directory : option string;
  file_handler : option FileHandler
}.

(** The logger object and [sys.stdout]. *)
Definition State : Type := t * list chunk.

(** Lines 30-51.  The console handler is created and never used; the
    directory that [os.makedirs] may create is not modelled.  The stream of
    a new handler holds what this handler wrote: nothing. *)
Definition __init__ (env : Env) (level : Z) (log_directory : option string) : t :=
  let file_handler :=
    match log_directory with
    | Some dir =>
        if bool_decide (dir ≠ "") then
          let timestamp := strftime env "%Y-%m-%dT%H-%M-%S" in
          let log_file_path := os_path_join env dir (timestamp +:+ ".log") in
          Some (mkFileHandler log_file_path [])
        else None
    | None => None
    end in
  mk level log_directory file_handler.

(** Lines 53-64 and 66-78. *)
Definition _get_call_info (env : Env) : string * string * Z :=
  (frame_module env, frame_filename env, frame_lineno env).
Definition _get_process_info (env : Env) : string * string * Z :=
  (current_process_name env, current_thread_name env, getpid env).

(** Lines 80-100. *)
Definition _format_log_message (env : Env) (level : Z) (msg module filename : string)
  (lineno : Z) (process_name thread_name : string) (process_id : Z) : string :=
  let timestamp := strftime env "%Y-%m-%d %H:%M:%S.%f" in
  let level_name := default "UNKNOWN" (LEVEL_NAMES !! level) in
  "[" +:+ timestamp +:+ "] " +:+ level_name +:+ " - " +:+ process_name +:+ " / "
  +:+ thread_name +:+ " (" +:+ pretty process_id +:+ ") - " +:+ module +:+ ":"
  +:+ filename +:+ ":" +:+ pretty lineno +:+ " - " +:+ msg.

Definition print (c : chunk) (s : State) : State := (fst s, snd s ++ [c]).

(** [if self.file_handler: self.file_handler.stream.write(..)]. *)
Definition write_file (c : chunk) (s : State) : State :=
  match file_handler (fst s) with
  | Some h =>
      (mk (level (fst s)) (log_directory (fst s))
          (Some (mkFileHandler (baseFilename h) (stream h ++ [c]))), snd s)
  | None => s
  end.

(** Lines 102-140. *)
Definition _log (env : Env) (lvl : Z) (msg : Msg) (json_payload : Payload)
  (s : State) : State :=
  if bool_decide (lvl < level (fst s)) then s
  else
    let msg := match msg with
               | Exc type_name text => type_name +:+ ": " +:+ text
               | Str m => m
               end in
    let '(module, filename, lineno) := _get_call_info env in
    let '(process_name, thread_name, process_id) := _get_process_info env in
    let formatted_msg :=
      _format_log_message env lvl msg module filename lineno
                          process_name thread_name process_id in
    let s := print (Line formatted_msg) s in
    let s := write_file (Line formatted_msg) s in
    if bool_decide (lvl = DEBUG) && truthy json_payload then
      match json_payload with
      | Some d => write_file (JsonLine d) (print (JsonLine d) s)
      | None => s
      end
    else s.

(** Lines 250-268. *)
Definition debug (env : Env) (msg : Msg) (json_payload : Payload) : State -> State :=
  _log env DEBUG msg json_payload.
Definition info (env : Env) (msg : Msg) : State -> State := _log env INFO msg None.
Definition warning (env : Env) (msg : Msg) : State -> State := _log env WARNING msg None.
Definition error (env : Env) (msg : Msg) : State -> State := _log env ERROR msg None.
Definition critical (env : Env) (msg : Msg) : State -> State := _log env CRITICAL msg None.

(** Lines 270-288. *)
Definition exception (env : Env) (msg : Msg) (s : State) : State :=
  let exc_info :=
    match msg with
    | Exc type_name text => Some (type_name, text)
    | Str _ => exc_info env
    end in
  match exc_info with
  | Some (type_name, text) =>
      let str_msg := match msg with Exc _ m => m | Str m => m end in
      let exception_msg := str_msg +:+ ": " +:+ type_name +:+ ": " +:+ text in
      let tb_str := format_exception env type_name text in
      let full_msg := exception_msg +:+ "
" +:+ tb_str in
      _log env ERROR (Str full_msg) None s
  | None => _log env ERROR msg None s
  end.

(** Lines 290-297. *)
Definition set_level (lvl : Z) (s : State) : State :=
  (mk lvl (log_directory (fst s)) (file_handler (fst s)), snd s).

(** The names bound in the class body (lines 13-297) and on the instance
    by [__init__] (lines 38-51). *)
Definition class_namespace : list string :=
  ["CRITICAL"; "ERROR"; "WARNING"; "INFO"; "DEBUG"; "NOTSET"; "LEVEL_NAMES";
   "__init__"; "_get_call_info"; "_get_process_info"; "_format_log_message";
   "_log"; "_parse_query_params"; "_format_human_readable_size";
   "_format_http_response"; "log_http_response"; "debug"; "info"; "warning";
   "error"; "critical"; "exception"; "set_level"].
Definition instance_namespace : list string :=
  ["level"; "log_directory"; "console_handler"; "file_handler"].

(** [self.<name>]: [AttributeError] when the name is bound nowhere. *)
Definition getattr (name : string) : outcome string :=
  if bool_decide (name ∈ instance_namespace ++ class_namespace)
  then Returns name else Raises (AttributeError name).

(** One call on the public interface. *)
Inductive call : Type :=
| CallLog (env : Env) (lvl : Z) (msg : Msg) (json_payload : Payload)
| CallDebug (env : Env) (msg : Msg) (json_payload : Payload)
| CallInfo (env : Env) (msg : Msg)
| CallWarning (env : Env) (msg : Msg)
| CallError (env : Env) (msg : Msg)
| CallCritical (env : Env) (msg : Msg)
| CallException (env : Env) (msg : Msg)
| CallSetLevel (lvl : Z).

Definition perform (c : call) : State -> State :=
  match c with
  | CallLog env lvl msg p => _log env lvl msg p
  | CallDebug env msg p => debug env msg p
  | CallInfo env msg => info env msg
  | CallWarning env msg => warning env msg
  | CallError env msg => error env msg
  | CallCritical env msg => critical env msg
  | CallException env msg => exception env msg
  | CallSetLevel lvl => set_level lvl
  end.

Definition perform_all (cs : list call) (s : State) : State :=
  foldl (fun s c => perform c s) s cs.

End WithAny.

Arguments truthy {Any} p.
Arguments Line {Any} s.
Arguments JsonLine {Any} d.
Arguments mkFileHandler {Any} _ _.
Arguments baseFilename {Any} _.
Arguments stream {Any} _.
Arguments mk {Any} _ _ _.
Arguments level {Any} _.
Arguments log_directory {Any} _.
Arguments file_handler {Any} _.
Arguments print {Any} c s.
Arguments write_file {Any} c s.
Arguments _log {Any} env lvl msg json_payload s.
Arguments debug {Any} env msg json_payload _.
Arguments info {Any} env msg _.
Arguments warning {Any} env msg _.
Arguments error {Any} env msg _.
Arguments critical {Any} env msg _.
Arguments exception {Any} env msg s.
Arguments set_level {Any} lvl s.
Arguments CallLog {Any} env lvl msg json_payload.
Arguments CallDebug {Any} env msg json_payload.
Arguments CallInfo {Any} env msg.
Arguments CallWarning {Any} env msg.
Arguments CallError {Any} env msg.
Arguments CallCritical {Any} env msg.
Arguments CallException {Any} env msg.
Arguments CallSetLevel {Any} lvl.
Arguments perform {Any} c _.
Arguments perform_all {Any} cs s.


(** *** HTTP helpers (lines 142-248) *)

(** Lines 177-184.  The size is a rational: the divisions by 1024 are
    exact, as they are on floats for the sizes of real payloads.
    [_format_human_readable_size] returns the number and the unit that the
    f-string of line 184 prints; [_format_human_readable_size_str] below
    is the printed text.  [None] stands for a loop that did not finish
    within [fuel] iterations. *)
Definition units : list string := ["B"; "KiB"; "MiB"; "GiB"; "TiB"].

Fixpoint size_loop (fuel : nat) (size : Q) (idx : nat) : option (Q * nat) :=
  if Qle_bool 1024 size && bool_decide (idx < length units - 1)%nat then
    match fuel with
    | O => None
    | S fuel' => size_loop fuel' (size / 1024) (S idx)
    end
  else Some (size, idx).

Definition _format_human_readable_size_fuel (fuel : nat) (size : Q)
  : option (outcome (Q * string)) :=
  match size_loop fuel size 0 with
  | Some (size', idx) =>
      Some (match units !! idx with
            | Some unit => Returns (size', unit)
            | None => Raises IndexError
            end)
  | None => None
  end.

Definition _format_human_readable_size (size : Q) : option (outcome (Q * string)) :=
  _format_human_readable_size_fuel (length units) size.

(** Line 184, [f"{size:.2f} {units[idx]}"].  A float is printed with two
    decimals by rounding its exact value to the nearest hundredth, ties to
    the even one; [hundredths] is that number of hundredths.  The sign is
    the sign of the number, also when it rounds to zero. *)
Definition round_half_even (x : Q) : Z :=
  let f := Qfloor x in
  match Qcompare (x - inject_Z f) (1 # 2) with
  | Lt => f
  | Gt => f + 1
  | Eq => if Z.even f then f else f + 1
  end.

Definition hundredths (x : Q) : Z := round_half_even (x * 100).

Definition format_2f (x : Q) : string :=
  let h := Z.abs (hundredths x) in
  (if Qle_bool 0 x then "" else "-")
  +:+ pretty (h / 100) +:+ "." +:+ pretty (h mod 100 / 10) +:+ pretty (h mod 10).

(** The text that the method returns. *)
Definition _format_human_readable_size_str (size : Q) : option (outcome string) :=
  match _format_human_readable_size size with
  | Some (Returns (size', unit)) => Some (Returns (format_2f size' +:+ " " +:+ unit))
  | Some (Raises e) => Some (Raises e)
  | None => None
  end.

(** [s.split(sep)] for a one-character separator. *)
Fixpoint split (sep : Ascii.ascii) (s : string) : list string :=
  match s with
  | EmptyString => [EmptyString]
  | String c s' =>
      if Ascii.eqb c sep then EmptyString :: split sep s'
      else match split sep s' with
           | word :: words => String c word :: words
           | [] => [String c EmptyString]
           end
  end.

(** [c in s] for a one-character [c]. *)
Fixpoint contains (c : Ascii.ascii) (s : string) : bool :=
  match s with
  | EmptyString => false
  | String c' s' => Ascii.eqb c' c || contains c s'
  end.

(** [dict(pairs)]: a later pair replaces an earlier one with the same key. *)
Definition dict {V} (pairs : list (string * V)) : gmap string V :=
  foldl (fun d kv => <[fst kv := snd kv]> d) ∅ pairs.

(** A value of the query dictionary: a string or [True]. *)
Inductive qvalue : Set :=
| QStr (s : string)
| QTrue.

(** What the code reads of [urlparse(url)]. *)
Record ParseResult : Set := mkParseResult {
  netloc : string;
  path : string;
  query : string
}.

(** What the code reads of a [requests] response. *)
Record Request : Type := mkRequest {
  request_method : string;
  request_headers : gmap string string
}.

Record Response : Type := mkResponse {
  content : string;
  request : Request;
  url : string;
  status_code : Z;
  elapsed : Z;
  headers : gmap string string
}.

(** The dictionary returned by [_format_http_response], by keys. *)
Record RequestDetails : Type := mkRequestDetails {
  d_host : string;
  d_path : string;
  d_method : string;
  d_headers : gmap string string;
  d_query_params : gmap string qvalue
}.

Record ResponseDetails : Type := mkResponseDetails {
  d_status_code : Z;
  d_elapsed_time_ms : Q;
  d_size : Q * string;
  d_response_headers : gmap string string
}.

Inductive http_details : Type :=
| Details (req : RequestDetails) (resp : ResponseDetails)
| Failure (error : string) (status_code : Z).

Section Http.
(** [urllib.parse.urlparse] (it raises [ValueError] on some malformed
    URLs) and [urllib.parse.parse_qsl] are library functions, taken as
    they are. *)
Variable urlparse : string -> outcome ParseResult.
Variable parse_qsl : string -> list (string * string).
Variable Any : Type.
(** How the dictionary of details is seen as a [Dict[str, Any]]. *)
Variable as_payload : http_details -> gmap string Any.

(** Lines 142-165. *)
Definition _parse_query_params (url : string) : outcome (gmap string qvalue) :=
  match urlparse url with
  | Raises e => Raises e
  | Returns parsed_url =>
      let query_params :=
        dict (map (fun kv => (fst kv, QStr (snd kv))) (parse_qsl (query parsed_url))) in
      Returns
        (if bool_decide (query parsed_url ≠ "") then
           let raw_params := split "&"%char (query parsed_url) in
           foldl (fun query_params param =>
                    if negb (contains "="%char param) && bool_decide (param ≠ "")
                    then <[param := QTrue]> query_params
                    else query_params)
                 query_params raw_params
         else query_params)
  end.

(** Lines 186-236.  An exception raised in the [try] block becomes the
    error dictionary. *)
Definition _format_http_response (response : Response) : option http_details :=
  let failed (e : exn) :=
    Failure ("Failed to format HTTP response: "
             +:+ match e with
                 | ValueError text => text
                 | AttributeError name => name
                 | IndexError => "list index out of range"
                 end)
            (status_code response) in
  match _format_human_readable_size
          (inject_Z (Z.of_nat (String.length (content response)))) with
  | None => None
  | Some (Raises e) => Some (failed e)
  | Some (Returns response_size) =>
      let request := request response in
      let request_headers := request_headers request in
      let request_headers :=
        if bool_decide (is_Some (request_headers !! "Authorization"))
        then <["Authorization" := "[REDACTED]"]> request_headers
        else request_headers in
      let url := url response in
      match urlparse url with
      | Raises e => Some (failed e)
      | Returns parsed_url =>
          let host := netloc parsed_url in
          let path := if bool_decide (path parsed_url ≠ "") then path parsed_url else "/" in
          match _parse_query_params url with
          | Raises e => Some (failed e)
          | Returns query_params =>
              Some (Details
                      (mkRequestDetails host path (request_method request)
                                        request_headers query_params)
                      (mkResponseDetails (status_code response)
                                         ((elapsed response # 1000000) * 1000)
                                         response_size (headers response)))
          end
      end
  end.

(** Lines 238-248.  Line 247 reads [self.format_http_response]; the branch
    taken when that name is bound calls the method of line 186. *)
Definition log_http_response (env : Env) (response : Response) (message : string)
  (s : State Any) : option (outcome (State Any)) :=
  if bool_decide (level (fst s) <= DEBUG) then
    match getattr "format_http_response" with
    | Raises e => Some (Raises e)
    | Returns _ =>
        match _format_http_response response with
        | Some http_details =>
            Some (Returns (debug env (Str message) (Some (as_payload http_details)) s))
        | None => None
        end
    end
  else Some (Returns s).

End Http.

Arguments log_http_response urlparse parse_qsl {Any} as_payload env response message s.

End Logger.

(** ** The limiter's use of its logger (lines 326 and 353) *)

Section LimiterLogging.
Variable Any : Type.

(** The logger calls behind the limiter's trace; [env_at i] is the
    environment of the call made for the [i]-th entry of the trace. *)
Fixpoint logger_calls_from (env_at : nat -> Logger.Env) (i : nat) (evs : list event)
  : list (Logger.call Any) :=
  match evs with
  | [] => []
  | LogInfo limit time_period :: evs' =>
      Logger.CallInfo (env_at i)
        (Logger.Str ("RateLimiter initialized with " +:+ pretty limit
                     +:+ " requests per " +:+ pretty time_period +:+ " seconds"))
      :: logger_calls_from env_at (S i) evs'
  | LogDebug wait_time :: evs' =>
      Logger.CallDebug (env_at i)
        (Logger.Str ("RateLimiter triggered for "
                     +:+ Logger.str_seconds (env_at i) wait_time +:+ " seconds"))
        None
      :: logger_calls_from env_at (S i) evs'
  | Sleep _ :: evs' => logger_calls_from env_at (S i) evs'
  end.

(** What one call of [_log] writes when it passes the threshold. *)
Definition log_chunks (env : Logger.Env) (lvl : Z) (msg : Logger.Msg)
  (p : Logger.Payload Any) : list (Logger.chunk Any) :=
  let text := match msg with
              | Logger.Exc type_name text => type_name +:+ ": " +:+ text
              | Logger.Str m => m
              end in
  Logger.Line
    (Logger._format_log_message env lvl text
       (Logger.frame_module env) (Logger.frame_filename env) (Logger.frame_lineno env)
       (Logger.current_process_name env) (Logger.current_thread_name env)
       (Logger.getpid env))
  :: match p with
     | Some d => if bool_decide (lvl = Logger.DEBUG) && Logger.truthy p
                 then [Logger.JsonLine d] else []
     | None => []
     end.

(** The logger after the chunks [cs] went to its file, if it has one. *)
Definition write_all (cs : list (Logger.chunk Any)) (lg : Logger.t Any) : Logger.t Any :=
  Logger.mk (Logger.level lg) (Logger.log_directory lg)
    (match Logger.file_handler lg with
     | Some h => Some (Logger.mkFileHandler (Logger.baseFilename h) (Logger.stream h ++ cs))
     | None => None
     end).

End LimiterLogging.

Arguments logger_calls_from {Any} env_at i evs.
Arguments log_chunks {Any} env lvl msg p.
Arguments write_all {Any} cs lg.

(** An environment and a logger for the examples. *)
Definition sample_env : Logger.Env :=
  Logger.mkEnv (fun _ => "2026-01-01 00:00:00.000000") "__main__" "main.py" 12
               "MainProcess" "MainThread" 4242 None (fun _ _ => "") (fun _ => "0.9")
               (fun dir file => dir +:+ "/" +:+ file).

Definition is_wait_event (e : event) : Prop :=
  match e with LogInfo _ _ => False | _ => True end.

Definition sample_logger (lvl : Z) : Logger.State Z := (Logger.mk lvl None None, []).

(** [1024 ^ n], as a rational. *)
Fixpoint pow1024 (n : nat) : Q :=
  match n with
  | O => 1
  | S n' => 1024 * pow1024 n'
  end.

(** The test of line 162: a parameter that is a switch. *)
Definition is_switch (param : string) : bool :=
  negb (Logger.contains "="%char param) && bool_decide (param ≠ "").

(** A parser for the examples: every URL has the query [a=1&flag&b=2&a=3]. *)
Definition sample_urlparse (url : string) : Logger.outcome Logger.ParseResult :=
  Logger.Returns (Logger.mkParseResult "example.org" "" "a=1&flag&b=2&a=3").
Definition sample_parse_qsl (query : string) : list (string * string) :=
  [("a", "1"); ("b", "2"); ("a", "3")].

(** A response for the examples. *)
Definition sample_response : Logger.Response :=
  Logger.mkResponse "{}"
    (Logger.mkRequest "GET"
       (<["Authorization" := "Bearer secret"]> (<["authorization" := "Basic secret"]>
        (<["Accept" := "*/*"]> ∅))))
    "https://example.org?a=1&flag&b=2&a=3" 200 1500
    (<["Content-Type" := "application/json"]> ∅).

(** ** [Logger._convert_level] of the packaged logger
    ([src/kronos/logger.py], lines 24-40 and 69-87) *)

Module KronosLogger.

Definition _LEVEL_NAMES : gmap Z string :=
  <[50 := "CRITICAL"]> (<[40 := "ERROR"]> (<[30 := "WARNING"]>
  (<[20 := "INFO"]> (<[10 := "DEBUG"]> (<[0 := "NOTSET"]> ∅))))).

Definition _LEVEL_VALUES : gmap string Z :=
  <["CRITICAL" := 50]> (<["ERROR" := 40]> (<["WARNING" := 30]>
  (<["INFO" := 20]> (<["DEBUG" := 10]> (<["NOTSET" := 0]> ∅))))).

(** [level: Union[int, str]]. *)
Inductive level_arg : Set :=
| LInt (n : Z)
| LStr (s : string).

Section WithUpper.
(** [str.upper], taken as it is. *)
Variable upper : string -> string.

Definition _convert_level (level : level_arg) : Logger.outcome Z :=
  match level with
  | LStr s =>
      let level_upper := upper s in
      match _LEVEL_VALUES !! level_upper with
      | Some value => Logger.Returns value
      | None =>
          Logger.Raises
            (Logger.ValueError
               ("Invalid log level string: " +:+ s +:+ ". Valid levels are: "
                +:+ "CRITICAL, ERROR, WARNING, INFO, DEBUG, NOTSET"))
      end
  | LInt n => Logger.Returns n
  end.

End WithUpper.

End KronosLogger.

(** [str.upper] on ASCII letters, for the examples. *)
Definition upper_ascii_char (c : Ascii.ascii) : Ascii.ascii :=
  let n := Ascii.nat_of_ascii c in
  if (97 <=? n)%nat && (n <=? 122)%nat then Ascii.ascii_of_nat (n - 32) else c.

Fixpoint upper_ascii (s : string) : string :=
  match s with
  | EmptyString => EmptyString
  | String c s' => String (upper_ascii_char c) (upper_ascii s')
  end.

(** * Properties *)

(** The scenario of the specification: limit 3, period 2 s, calls at
    0.0, 0.1, 0.2 and 0.3 s; the fourth call sleeps 1.7 s. *)
Example run_spec_scenario :
  match __init__ 3 2 false (mkWorld 0 []) with
  | Ok s => run [0; 100000; 100000; 100000] s
  | Raise e => Raise e
  end
  = Ok (tt, (mkRateLimiter 3 2 ThreadingLock (PyList [0; 100000; 200000; 300000]),
             mkWorld 2000000 [LogInfo 3 2; LogDebug 1700000; Sleep 1700000])).
Proof. vm_compute. reflexivity. Qed.

Lemma items_with_items t l : items (with_items t l) = l.
Proof. destruct t; reflexivity. Qed.

(** ** The monad *)

Lemma bind_Ok {A B} (m : M A) (k : A -> M B) s a s' :
  m s = Ok (a, s') -> (m ≫= k) s = k a s'.
Proof. intros H. unfold mbind, M_bind, bind. rewrite H. reflexivity. Qed.

Lemma bind_Raise {A B} (m : M A) (k : A -> M B) s e :
  m s = Raise e -> (m ≫= k) s = Raise e.
Proof. intros H. unfold mbind, M_bind, bind. rewrite H. reflexivity. Qed.

(** ** Sorting the expired indices *)

Lemma insert_desc_above x acc :
  Forall (fun y => (y < x)%nat) acc -> insert_desc x acc = x :: acc.
Proof.
  destruct 1 as [|y acc Hy _]; simpl; [reflexivity|].
  apply Nat.ltb_lt in Hy. rewrite Hy. reflexivity.
Qed.

Lemma sorted_reverse_ascending_acc l : forall acc,
  StronglySorted lt l ->
  Forall (fun x => Forall (fun y => (y < x)%nat) acc) l ->
  foldl (fun acc x => insert_desc x acc) acc l = reverse l ++ acc.
Proof.
  induction l as [|x l IH]; intros acc Hs Hacc; simpl; [reflexivity|].
  apply StronglySorted_cons in Hs as [Hx Hs].
  apply Forall_cons in Hacc as [Hxacc Hacc].
  rewrite insert_desc_above by assumption.
  rewrite IH, reverse_cons, <- app_assoc; [reflexivity|assumption|].
  rewrite Forall_forall in *. intros z Hz.
  constructor; [apply Hx, Hz|apply Hacc, Hz].
Qed.

Lemma sorted_reverse_ascending l :
  StronglySorted lt l -> sorted_reverse l = reverse l.
Proof.
  intros Hs. unfold sorted_reverse.
  rewrite sorted_reverse_ascending_acc, app_nil_r; [reflexivity|assumption|].
  apply Forall_forall. intros; constructor.
Qed.

Section Expired.
Variables (now : datetime) (time_period : Z).

Lemma expired_loop l : forall i acc,
  foldl (fun acc '(i, ts) =>
           if bool_decide (now - ts >= timedelta_seconds time_period)
           then acc ++ [i] else acc)
        acc (enumerate_from i l)
  = acc ++ expired_from now time_period i l.
Proof.
  induction l as [|ts l IH]; intros i acc; simpl.
  - by rewrite app_nil_r.
  - rewrite IH. case_bool_decide; [|reflexivity].
    by rewrite <- app_assoc.
Qed.

Lemma expired_from_S l : forall i,
  expired_from now time_period (S i) l = S <$> expired_from now time_period i l.
Proof.
  induction l as [|ts l IH]; intros i; simpl; [reflexivity|].
  case_bool_decide; rewrite IH; reflexivity.
Qed.

Lemma expired_from_lower l : forall i,
  Forall (fun j => (i <= j)%nat) (expired_from now time_period i l).
Proof.
  induction l as [|ts l IH]; intros i; simpl; [constructor|].
  assert (Forall (fun j => (i <= j)%nat) (expired_from now time_period (S i) l)).
  { eapply Forall_impl; [apply IH|]. simpl. lia. }
  case_bool_decide; [constructor; [lia|]|]; assumption.
Qed.

Lemma expired_from_ascending l : forall i,
  StronglySorted lt (expired_from now time_period i l).
Proof.
  induction l as [|ts l IH]; intros i; simpl; [constructor|].
  case_bool_decide; [|apply IH].
  constructor; [apply IH|].
  eapply Forall_impl; [apply expired_from_lower|]. simpl. lia.
Qed.
End Expired.

(** ** Popping the expired indices, highest first *)

Lemma pops_app {A} js1 : forall js2 (l : list A),
  pops (js1 ++ js2) l
  = match pops js1 l with Ok l' => pops js2 l' | Raise e => Raise e end.
Proof.
  induction js1 as [|i js1 IH]; intros js2 l; simpl; [reflexivity|].
  destruct (pop i l); [apply IH|reflexivity].
Qed.

Lemma pops_shift {A} (x : A) js : forall l,
  pops (S <$> js) (x :: l)
  = match pops js l with Ok l' => Ok (x :: l') | Raise e => Raise e end.
Proof.
  induction js as [|i js IH]; intros l; simpl; [reflexivity|].
  unfold pop; simpl.
  destruct (bool_decide (i < length l)%nat) eqn:Hi.
  - rewrite bool_decide_eq_true_2 by (apply bool_decide_eq_true in Hi; lia).
    apply IH.
  - rewrite bool_decide_eq_false_2 by (apply bool_decide_eq_false in Hi; lia).
    reflexivity.
Qed.

Lemma pops_expired now time_period l :
  pops (reverse (expired_from now time_period 0 l)) l = Ok (kept now time_period l).
Proof.
  unfold kept. induction l as [|ts l IH]; simpl; [reflexivity|].
  rewrite expired_from_S.
  case_bool_decide as Hexp.
  - rewrite reverse_cons, pops_app, <- fmap_reverse, pops_shift, IH. simpl.
    rewrite filter_cons_False by lia. reflexivity.
  - rewrite <- fmap_reverse, pops_shift, IH.
    rewrite filter_cons_True by lia. reflexivity.
Qed.

(** ** What each phase of [acquire] computes *)

Lemma for_each_pop js : forall self w,
  for_each js timestamps_pop (self, w)
  = match pops js (items (_timestamps self)) with
    | Ok l' => Ok (tt, (with_timestamps self (with_items (_timestamps self) l'), w))
    | Raise e => Raise e
    end.
Proof.
  induction js as [|i js IH]; intros [limit tp lk t] w; simpl.
  - destruct t; reflexivity.
  - unfold timestamps_pop, get_timestamps, lift, mbind, M_bind, bind. simpl.
    destruct (pop i (items t)) as [l'|e]; [|reflexivity]. simpl.
    unfold mbind, M_bind, bind in IH. rewrite IH. simpl.
    destruct t; simpl; destruct (pops js l'); reflexivity.
Qed.

Lemma acquire_prune_eq now self w :
  acquire_prune now (self, w)
  = Ok (tt, (with_timestamps self
               (with_items (_timestamps self)
                  (kept now (_time_period self) (items (_timestamps self)))), w)).
Proof.
  destruct self as [limit tp lk t]. unfold acquire_prune.
  unfold mbind, M_bind, bind, get_timestamps, get_time_period. simpl.
  destruct t as [l|l]; simpl.
  - reflexivity.
  - rewrite for_each_pop. simpl. unfold enumerate.
    rewrite (expired_loop now tp l 0 []). simpl.
    rewrite sorted_reverse_ascending by apply expired_from_ascending.
    rewrite pops_expired. reflexivity.
Qed.

Lemma acquire_wait_eq now self w :
  acquire_wait now (self, w)
  = Ok (tt, (self, after_wait w
                     (wait_of (_limit self) (_time_period self) now
                              (items (_timestamps self))))).
Proof.
  destruct self as [limit tp lk t]. unfold acquire_wait, wait_of.
  unfold mbind, M_bind, bind, get_timestamps, get_limit, get_time_period. simpl.
  destruct (items t) as [|oldest l] eqn:Hl; simpl.
  - case_bool_decide; reflexivity.
  - unfold total_seconds.
    destruct (bool_decide (Z.of_nat (S (length l)) >= limit)) eqn:Hfull.
    + simpl.
      destruct (bool_decide (oldest + timedelta_seconds tp - now > 0)) eqn:Hpos.
      * apply bool_decide_eq_true in Hfull, Hpos.
        rewrite bool_decide_eq_true_2 by (split; assumption).
        unfold emit, time_sleep. simpl.
        destruct (Z.ltb_spec (oldest + timedelta_seconds tp - now) 0); [lia|].
        destruct w as [c ev]. simpl. rewrite <- app_assoc. reflexivity.
      * apply bool_decide_eq_false in Hpos.
        rewrite bool_decide_eq_false_2 by tauto. reflexivity.
    + apply bool_decide_eq_false in Hfull.
      rewrite bool_decide_eq_false_2 by tauto. reflexivity.
Qed.

(** The whole call, in closed form. *)
Lemma acquire_eq self w :
  acquire (self, w)
  = let now := clock w in
    let pruned := kept now (_time_period self) (items (_timestamps self)) in
    Ok (tt, (with_timestamps self (with_items (_timestamps self) (pruned ++ [now])),
             after_wait w (wait_of (_limit self) (_time_period self) now pruned))).
Proof.
  unfold acquire.
  erewrite bind_Ok by reflexivity.
  erewrite bind_Ok by apply acquire_prune_eq.
  erewrite bind_Ok by apply acquire_wait_eq.
  destruct self as [limit tp lk t]. destruct t; reflexivity.
Qed.

(** ** Construction *)

Lemma init_eq limit time_period mode w :
  __init__ limit time_period mode w
  = Ok (mkRateLimiter limit time_period
          (if mode then ManagerLock else ThreadingLock)
          (if mode then ListProxy [] else PyList []),
        mkWorld (clock w) (events w ++ [LogInfo limit time_period])).
Proof. destruct mode; reflexivity. Qed.

(** C2 (as the code behaves).  [__init__] validates nothing: for every
    [limit] and [time_period], non-positive ones included, it raises no
    exception and returns a limiter that stores both values unchanged, with
    an empty ledger of the kind chosen by the mode, after one info line;
    [acquire] then succeeds on that limiter. *)
Theorem init_accepts_any_configuration limit time_period mode w :
  exists self,
    __init__ limit time_period mode w
    = Ok (self, mkWorld (clock w) (events w ++ [LogInfo limit time_period]))
    /\ _limit self = limit
    /\ _time_period self = time_period
    /\ _timestamps self = (if mode then ListProxy [] else PyList [])
    /\ exists s', acquire (self, mkWorld (clock w) (events w ++ [LogInfo limit time_period]))
                  = Ok (tt, s').
Proof.
  destruct mode; eexists; (split; [reflexivity|]); repeat split;
    rewrite acquire_eq; eexists; reflexivity.
Qed.

(** C2 fails on the code: with [limit=0], [limit=-5], [time_period=0] or
    [time_period=-1] construction returns a limiter instead of raising. *)
Lemma init_nonpositive_not_rejected :
  __init__ 0 1 false (mkWorld 0 [])
    = Ok (mkRateLimiter 0 1 ThreadingLock (PyList []), mkWorld 0 [LogInfo 0 1])
  /\ __init__ (-5) 1 false (mkWorld 0 [])
    = Ok (mkRateLimiter (-5) 1 ThreadingLock (PyList []), mkWorld 0 [LogInfo (-5) 1])
  /\ __init__ 1 0 true (mkWorld 0 [])
    = Ok (mkRateLimiter 1 0 ManagerLock (ListProxy []), mkWorld 0 [LogInfo 1 0])
  /\ __init__ 1 (-1) true (mkWorld 0 [])
    = Ok (mkRateLimiter 1 (-1) ManagerLock (ListProxy []), mkWorld 0 [LogInfo 1 (-1)])
  /\ ~ (forall limit time_period mode w,
          limit <= 0 \/ time_period <= 0 ->
          exists e, __init__ limit time_period mode w = Raise e).
Proof.
  repeat split; try reflexivity.
  intros H. destruct (H 0 1 false (mkWorld 0 [])) as [e He]; [lia|].
  discriminate He.
Qed.

(** ** Pruning *)

(** C4.  At instant [now] the pruning step of [acquire] raises nothing and
    leaves, in a ledger of the same kind, exactly the entries that are not
    expired ([now - ts >= time_period] is false), in their order: every
    expired entry is gone, however many there were, and the length that the
    capacity check reads counts unexpired entries only. *)
Theorem prune_removes_exactly_expired now self w :
  exists self',
    acquire_prune now (self, w) = Ok (tt, (self', w))
    /\ isinstance_list (_timestamps self') = isinstance_list (_timestamps self)
    /\ items (_timestamps self')
       = filter (fun ts => ~ (now - ts >= timedelta_seconds (_time_period self)))
                (items (_timestamps self))
    /\ Forall (fun ts => now - ts < timedelta_seconds (_time_period self))
              (items (_timestamps self'))
    /\ length (items (_timestamps self'))
       = length (filter (fun ts => now - ts < timedelta_seconds (_time_period self))
                        (items (_timestamps self))).
Proof.
  eexists. split; [apply acquire_prune_eq|].
  destruct self as [limit tp lk t]; simpl.
  assert (Hitems : items (with_items t (kept now tp (items t))) = kept now tp (items t))
    by (destruct t; reflexivity).
  rewrite Hitems. repeat split.
  - destruct t; reflexivity.
  - unfold kept. apply list_filter_iff. intros ts. lia.
  - unfold kept. apply Forall_forall. intros ts Hts.
    apply list_elem_of_filter in Hts. tauto.
Qed.

(** C8.  On the same contents and at the same instant, the list
    comprehension of threading mode and the collect-then-pop-in-reverse
    loop of multiprocessing mode both succeed and leave the same entries. *)
Theorem prune_modes_agree now limit time_period lock1 lock2 l w1 w2 :
  exists self1 self2,
    acquire_prune now (mkRateLimiter limit time_period lock1 (PyList l), w1)
      = Ok (tt, (self1, w1))
    /\ acquire_prune now (mkRateLimiter limit time_period lock2 (ListProxy l), w2)
      = Ok (tt, (self2, w2))
    /\ items (_timestamps self1) = items (_timestamps self2).
Proof.
  do 2 eexists. split; [apply acquire_prune_eq|].
  split; [apply acquire_prune_eq|]. reflexivity.
Qed.

(** ** Waiting *)

(** C3.  When the pruned ledger holds at least [limit] entries and its
    entry at index 0 (the oldest one, see [ledger_ordered_oldest_first]) is
    [t0], the call succeeds; after the wait phase the timestamp is not yet
    recorded and the clock has moved by exactly
    [max 0 (t0 + time_period - now)]; [time.sleep] is called, once and with
    that length, only when the length is strictly positive; the timestamp
    is appended afterwards. *)
Theorem wait_duration_correct self w t0 rest :
  kept (clock w) (_time_period self) (items (_timestamps self)) = t0 :: rest ->
  Z.of_nat (length (t0 :: rest)) >= _limit self ->
  let now := clock w in
  let wait := t0 + timedelta_seconds (_time_period self) - now in
  exists pruned waited final,
    acquire_prune now (self, w) = Ok (tt, pruned)
    /\ acquire_wait now pruned = Ok (tt, waited)
    /\ timestamps_append now waited = Ok (tt, final)
    /\ acquire (self, w) = Ok (tt, final)
    /\ items (_timestamps (fst waited)) = t0 :: rest
    /\ clock (snd waited) = now + Z.max 0 wait
    /\ events (snd waited)
       = events w ++ (if bool_decide (wait > 0) then [LogDebug wait; Sleep wait] else [])
    /\ items (_timestamps (fst final)) = (t0 :: rest) ++ [now]
    /\ snd final = snd waited.
Proof.
  intros Hkept Hfull now wait.
  do 3 eexists.
  split; [apply acquire_prune_eq|].
  split; [apply acquire_wait_eq|].
  split; [reflexivity|].
  split.
  { rewrite acquire_eq. destruct self as [limit tp lk t]; destruct t; reflexivity. }
  destruct self as [limit tp lk t]. simpl in *.
  assert (Hitems : items (with_items t (kept now tp (items t))) = t0 :: rest)
    by (destruct t; exact Hkept).
  rewrite Hitems. unfold wait_of. fold wait.
  destruct w as [c ev]. simpl in *. subst now.
  split; [reflexivity|].
  destruct (bool_decide (wait > 0)) eqn:Hpos.
  - apply bool_decide_eq_true in Hpos.
    rewrite bool_decide_eq_true_2 by (split; [exact Hfull|exact Hpos]). simpl.
    repeat split; [lia|].
    destruct t; simpl in *; rewrite Hkept; reflexivity.
  - apply bool_decide_eq_false in Hpos.
    rewrite bool_decide_eq_false_2 by tauto. simpl.
    repeat split; [lia|by rewrite app_nil_r|].
    destruct t; simpl in *; rewrite Hkept; reflexivity.
Qed.

Lemma wait_duration_correct_witness :
  kept 300000 2 [0; 100000; 200000] = [0; 100000; 200000]
  /\ Z.of_nat (length [0; 100000; 200000]) >= 3
  /\ exists pruned waited final,
    acquire_prune 300000
      (mkRateLimiter 3 2 ThreadingLock (PyList [0; 100000; 200000]), mkWorld 300000 [])
      = Ok (tt, pruned)
    /\ acquire_wait 300000 pruned = Ok (tt, waited)
    /\ timestamps_append 300000 waited = Ok (tt, final)
    /\ acquire (mkRateLimiter 3 2 ThreadingLock (PyList [0; 100000; 200000]),
                mkWorld 300000 [])
       = Ok (tt, final)
    /\ items (_timestamps (fst waited)) = [0; 100000; 200000]
    /\ clock (snd waited) = 300000 + Z.max 0 (0 + timedelta_seconds 2 - 300000)
    /\ events (snd waited)
       = [] ++ (if bool_decide (0 + timedelta_seconds 2 - 300000 > 0)
                then [LogDebug (0 + timedelta_seconds 2 - 300000);
                      Sleep (0 + timedelta_seconds 2 - 300000)] else [])
    /\ items (_timestamps (fst final)) = [0; 100000; 200000] ++ [300000]
    /\ snd final = snd waited.
Proof.
  split; [reflexivity|]. split; [simpl; lia|].
  apply (wait_duration_correct
           (mkRateLimiter 3 2 ThreadingLock (PyList [0; 100000; 200000]))
           (mkWorld 300000 []) 0 [100000; 200000]).
  - reflexivity.
  - simpl. lia.
Defined.

(** C5.  When the pruned ledger holds strictly fewer than [limit] entries,
    the call returns without sleeping: the world (clock and trace) is
    untouched and the timestamp is recorded at once. *)
Theorem no_unnecessary_wait self w :
  Z.of_nat (length (kept (clock w) (_time_period self) (items (_timestamps self))))
    < _limit self ->
  exists self',
    acquire (self, w) = Ok (tt, (self', w))
    /\ items (_timestamps self')
       = kept (clock w) (_time_period self) (items (_timestamps self)) ++ [clock w].
Proof.
  intros Hfree. rewrite acquire_eq. cbv zeta.
  assert (Hw : wait_of (_limit self) (_time_period self) (clock w)
                 (kept (clock w) (_time_period self) (items (_timestamps self))) = None).
  { unfold wait_of.
    destruct (kept (clock w) (_time_period self) (items (_timestamps self)));
      [reflexivity|].
    rewrite bool_decide_eq_false_2; [reflexivity|]. lia. }
  rewrite Hw. eexists. split; [reflexivity|].
  destruct self as [limit tp lk t]; destruct t; reflexivity.
Qed.

Lemma no_unnecessary_wait_witness :
  Z.of_nat (length (kept 4500000 1 [0; 100000; 4000000])) < 2
  /\ exists self',
    acquire (mkRateLimiter 2 1 ManagerLock (ListProxy [0; 100000; 4000000]),
             mkWorld 4500000 [])
      = Ok (tt, (self', mkWorld 4500000 []))
    /\ items (_timestamps self') = [4000000] ++ [4500000].
Proof.
  split; [vm_compute; reflexivity|].
  apply (no_unnecessary_wait
           (mkRateLimiter 2 1 ManagerLock (ListProxy [0; 100000; 4000000]))
           (mkWorld 4500000 [])).
  vm_compute. reflexivity.
Defined.

(** ** Recording *)

(** C6.  The timestamp appended by a call is the instant read from the
    clock when the call started.  When the call slept, the clock at the
    time of the append is strictly later, and it is not what is recorded. *)
Theorem appended_timestamp_is_start_instant self w :
  exists self' w',
    acquire (self, w) = Ok (tt, (self', w'))
    /\ items (_timestamps self')
       = kept (clock w) (_time_period self) (items (_timestamps self)) ++ [clock w]
    /\ last (items (_timestamps self')) = Some (clock w)
    /\ match wait_of (_limit self) (_time_period self) (clock w)
               (kept (clock w) (_time_period self) (items (_timestamps self))) with
       | Some d =>
           0 < d /\ clock w' = clock w + d
           /\ events w' = events w ++ [LogDebug d; Sleep d]
           /\ last (items (_timestamps self')) <> Some (clock w')
       | None => w' = w
       end.
Proof.
  do 2 eexists. split; [apply acquire_eq|]. cbv zeta.
  set (pruned := kept (clock w) (_time_period self) (items (_timestamps self))).
  assert (Hitems : items (_timestamps (with_timestamps self
                     (with_items (_timestamps self) (pruned ++ [clock w]))))
                   = pruned ++ [clock w])
    by (destruct self as [limit tp lk t]; destruct t; reflexivity).
  rewrite Hitems, last_snoc.
  split; [reflexivity|]. split; [reflexivity|].
  unfold wait_of. destruct pruned as [|oldest rest]; [reflexivity|].
  case_bool_decide as Hd; [|reflexivity]. simpl.
  repeat split; [lia|]. intros Heq. inversion Heq. lia.
Qed.

(** Under normal operation the whole method does what [acquire] does and
    returns [True]. *)
Lemma acquire_full_eq self w :
  normal_operation (self, w) ->
  acquire_full (self, w)
  = match acquire (self, w) with
    | Ok (_, s') => Ok (true, s')
    | Raise e => Raise e
    end.
Proof.
  intros [Hperiod Hentries]. simpl in Hperiod, Hentries.
  assert (Htd : timedelta_checked (_time_period self)
                = Ok (timedelta_seconds (_time_period self))).
  { unfold timedelta_checked. by rewrite bool_decide_eq_true_2. }
  rewrite acquire_eq. cbv zeta.
  unfold acquire_full.
  unfold mbind, M_bind, bind, datetime_now, get_timestamps, get_time_period, get_limit.
  cbn [fst snd].
  assert (H0 : match items (_timestamps self) with
               | [] => (mret tt : M unit)
               | _ :: _ =>
                   fun s : St =>
                     match lift (timedelta_checked (_time_period self)) s with
                     | Ok (_, s') => (mret tt : M unit) s'
                     | Raise e => Raise e
                     end
               end (self, w) = Ok (tt, (self, w))).
  { destruct (items (_timestamps self)); [reflexivity|].
    unfold lift. rewrite Htd. reflexivity. }
  rewrite H0, acquire_prune_eq. cbn [fst snd].
  set (pruned := kept (clock w) (_time_period self) (items (_timestamps self))).
  assert (Hp : Forall (fun ts =>
               0 <= ts + timedelta_seconds (_time_period self) <= datetime_max
               /\ ts + timedelta_seconds (_time_period self) - clock w <= sleep_max) pruned).
  { rewrite Forall_forall in *. intros ts Hts. apply Hentries.
    unfold pruned, kept in Hts. apply list_elem_of_filter in Hts. tauto. }
  destruct self as [limit tp lk t]. cbn [_limit _time_period _timestamps with_timestamps] in *.
  rewrite items_with_items.
  unfold wait_of. clearbody pruned.
  destruct pruned as [|oldest rest].
  - cbn [length]. case_bool_decide; cbn; destruct t; reflexivity.
  - apply Forall_cons in Hp as [[Hrange Hsleep] _].
    destruct (bool_decide (Z.of_nat (length (oldest :: rest)) >= limit)) eqn:Hfull.
    + rewrite (bool_decide_eq_true_2 (Z.of_nat (length (oldest :: rest)) > 0))
        by (cbn [length]; lia).
      unfold lift at 1. cbn [getitem lookup list_lookup].
      unfold lift. rewrite Htd.
      assert (Hadd : datetime_add oldest (timedelta_seconds tp)
                     = Ok (oldest + timedelta_seconds tp)).
      { unfold datetime_add. by rewrite bool_decide_eq_true_2. }
      rewrite Hadd. unfold total_seconds.
      destruct (bool_decide (oldest + timedelta_seconds tp - clock w > 0)) eqn:Hpos.
      * apply bool_decide_eq_true in Hfull, Hpos.
        rewrite bool_decide_eq_true_2 by (split; assumption).
        unfold emit, time_sleep_checked, time_sleep. cbn [fst snd clock events].
        rewrite bool_decide_eq_false_2 by lia.
        destruct (Z.ltb_spec (oldest + timedelta_seconds tp - clock w) 0); [lia|].
        destruct w as [c ev], t; cbn; rewrite <- app_assoc; reflexivity.
      * apply bool_decide_eq_false in Hpos.
        rewrite bool_decide_eq_false_2 by tauto.
        destruct w as [c ev], t; reflexivity.
    + apply bool_decide_eq_false in Hfull.
      rewrite bool_decide_eq_false_2 by tauto.
      destruct w as [c ev], t; reflexivity.
Qed.

(** A usual case of normal operation: a period between zero and
    9 000 000 000 seconds (285 years), every recorded instant between
    [datetime.min] and the clock, and a window that opened now closing
    inside the calendar. *)
Lemma normal_operation_usual self w :
  0 <= _time_period self <= 9000000000 ->
  Forall (fun ts => 0 <= ts <= clock w) (items (_timestamps self)) ->
  clock w + timedelta_seconds (_time_period self) <= datetime_max ->
  normal_operation (self, w).
Proof.
  intros Hperiod Hentries Hend. split; simpl.
  - split.
    + transitivity 0; [lia|]. apply Z.div_pos; lia.
    + transitivity (9000000000 / 86400); [apply Z.div_le_mono; lia|]. vm_compute. discriminate.
  - eapply Forall_impl; [exact Hentries|]. simpl. intros ts Hts.
    unfold timedelta_seconds in *.
    assert (Hmax : 9000000000 * 1000000 <= sleep_max) by (vm_compute; discriminate).
    lia.
Qed.

(** C7 (as the code behaves).  Under normal operation [acquire] never
    fails: from every such state of the limiter and of the world it
    returns the success indicator [True] without raising, after sleeping
    once or not at all.  Its effect on the ledger is the removal of the
    expired entries followed by the append of exactly one timestamp; limit,
    period and lock are unchanged and the ledger keeps its kind. *)
Theorem acquire_never_fails self w :
  normal_operation (self, w) ->
  exists self' w',
    acquire_full (self, w) = Ok (true, (self', w'))
    /\ w' = after_wait w
               (wait_of (_limit self) (_time_period self) (clock w)
                  (kept (clock w) (_time_period self) (items (_timestamps self))))
    /\ _limit self' = _limit self
    /\ _time_period self' = _time_period self
    /\ _lock self' = _lock self
    /\ isinstance_list (_timestamps self') = isinstance_list (_timestamps self)
    /\ items (_timestamps self')
       = kept (clock w) (_time_period self) (items (_timestamps self)) ++ [clock w]
    /\ length (items (_timestamps self'))
       = S (length (kept (clock w) (_time_period self) (items (_timestamps self)))).
Proof.
  intros Hnormal. do 2 eexists.
  split; [rewrite (acquire_full_eq self w Hnormal), acquire_eq; reflexivity|].
  split; [reflexivity|].
  destruct self as [limit tp lk t]; destruct t; simpl;
    rewrite length_app; simpl; repeat split; lia.
Qed.

Lemma acquire_never_fails_witness :
  normal_operation (mkRateLimiter 2 1 ManagerLock
                      (ListProxy [new_year_2026; new_year_2026 + 400000]),
                    mkWorld (new_year_2026 + 500000) [])
  /\ exists self' w',
    acquire_full (mkRateLimiter 2 1 ManagerLock
                    (ListProxy [new_year_2026; new_year_2026 + 400000]),
                  mkWorld (new_year_2026 + 500000) [])
      = Ok (true, (self', w'))
    /\ w' = after_wait (mkWorld (new_year_2026 + 500000) [])
               (wait_of 2 1 (new_year_2026 + 500000)
                  (kept (new_year_2026 + 500000) 1
                        [new_year_2026; new_year_2026 + 400000]))
    /\ _limit self' = 2
    /\ _time_period self' = 1
    /\ _lock self' = ManagerLock
    /\ isinstance_list (_timestamps self') = false
    /\ items (_timestamps self')
       = kept (new_year_2026 + 500000) 1 [new_year_2026; new_year_2026 + 400000]
         ++ [new_year_2026 + 500000]
    /\ length (items (_timestamps self'))
       = S (length (kept (new_year_2026 + 500000) 1
                         [new_year_2026; new_year_2026 + 400000])).
Proof.
  assert (H : normal_operation
                (mkRateLimiter 2 1 ManagerLock
                   (ListProxy [new_year_2026; new_year_2026 + 400000]),
                 mkWorld (new_year_2026 + 500000) [])).
  { split; simpl; [vm_compute; split; discriminate|].
    repeat constructor; vm_compute; discriminate. }
  split; [exact H|].
  apply (acquire_never_fails _ _ H).
Defined.

(** C7 fails on the code as stated: appending is not the only effect on
    the ledger.  A call five seconds after the single recorded admission,
    with a one-second period, also removes that entry. *)
Lemma acquire_append_not_only_effect :
  normal_operation (mkRateLimiter 1 1 ThreadingLock (PyList [0]), mkWorld 5000000 [])
  /\ acquire_full (mkRateLimiter 1 1 ThreadingLock (PyList [0]), mkWorld 5000000 [])
     = Ok (true, (mkRateLimiter 1 1 ThreadingLock (PyList [5000000]), mkWorld 5000000 []))
  /\ (forall ts : Z, [5000000] <> [0] ++ [ts])
  /\ ~ (forall self w,
          normal_operation (self, w) ->
          exists self' w' ts,
            acquire_full (self, w) = Ok (true, (self', w'))
            /\ items (_timestamps self') = items (_timestamps self) ++ [ts]).
Proof.
  assert (Hn : normal_operation
                 (mkRateLimiter 1 1 ThreadingLock (PyList [0]), mkWorld 5000000 [])).
  { split; simpl; [vm_compute; split; discriminate|].
    repeat constructor; vm_compute; discriminate. }
  split; [exact Hn|]. split; [reflexivity|]. split; [discriminate|].
  intros H.
  destruct (H _ _ Hn) as (self' & w' & ts & Hrun & Hitems).
  vm_compute in Hrun. inversion Hrun; subst. discriminate Hitems.
Qed.

(** Outside normal operation the call can fail: with a period of [10^12]
    seconds the window of an entry recorded in 2026 ends after the year
    9999, and line 351 raises [OverflowError]. *)
Example acquire_full_overflow :
  acquire_full (mkRateLimiter 1 (10 ^ 12) ThreadingLock (PyList [new_year_2026]),
                mkWorld (new_year_2026 + 100000) [])
  = Raise OverflowError.
Proof. vm_compute. reflexivity. Qed.

(** ** Index safety *)

(** C10.  The read of index 0 is guarded.  A limiter built with
    [limit <= 0] is accepted by [__init__]; its first call finds an empty
    ledger, on which an unguarded [self._timestamps[0]] would raise
    [IndexError]; the capacity test [len >= limit] holds, the emptiness
    check skips the wait, and the call returns with the world untouched and
    one timestamp recorded.  In no state does [acquire] raise
    [IndexError]. *)
Theorem acquire_index_guarded limit time_period mode w :
  limit <= 0 ->
  exists self w1,
    __init__ limit time_period mode w = Ok (self, w1)
    /\ items (_timestamps self) = []
    /\ getitem (items (_timestamps self)) 0 = Raise IndexError
    /\ bool_decide (Z.of_nat (length (items (_timestamps self))) >= _limit self) = true
    /\ acquire_wait (clock w1) (self, w1) = Ok (tt, (self, w1))
    /\ acquire (self, w1)
       = Ok (tt, (with_timestamps self (with_items (_timestamps self) [clock w1]), w1))
    /\ forall self0 w0, acquire (self0, w0) <> Raise IndexError.
Proof.
  intros Hlimit.
  do 2 eexists. split; [apply init_eq|].
  set (self := mkRateLimiter _ _ _ _).
  assert (Hempty : items (_timestamps self) = []) by (destruct mode; reflexivity).
  split; [exact Hempty|].
  split; [rewrite Hempty; reflexivity|].
  split; [rewrite Hempty; apply bool_decide_eq_true_2; simpl; lia|].
  split; [rewrite acquire_wait_eq, Hempty; reflexivity|].
  split; [rewrite acquire_eq; cbv zeta; rewrite Hempty; reflexivity|].
  intros self0 w0. rewrite acquire_eq. discriminate.
Qed.

Lemma acquire_index_guarded_witness :
  -5 <= 0 /\
  exists self w1,
    __init__ (-5) 1 true (mkWorld 0 []) = Ok (self, w1)
    /\ items (_timestamps self) = []
    /\ getitem (items (_timestamps self)) 0 = Raise IndexError
    /\ bool_decide (Z.of_nat (length (items (_timestamps self))) >= _limit self) = true
    /\ acquire_wait (clock w1) (self, w1) = Ok (tt, (self, w1))
    /\ acquire (self, w1)
       = Ok (tt, (with_timestamps self (with_items (_timestamps self) [clock w1]), w1))
    /\ forall self0 w0, acquire (self0, w0) <> Raise IndexError.
Proof.
  split; [lia|]. apply (acquire_index_guarded (-5) 1 true (mkWorld 0 [])). lia.
Defined.

(** ** Order of the ledger *)

Lemma kept_ascending now time_period l :
  StronglySorted Z.le l -> StronglySorted Z.le (kept now time_period l).
Proof.
  unfold kept. induction 1 as [|ts l Hs IH Hts]; [constructor|].
  rewrite filter_cons. case_decide; [|exact IH].
  constructor; [exact IH|].
  apply Forall_forall. intros x Hx. apply list_elem_of_filter in Hx as [_ Hx].
  rewrite Forall_forall in Hts. apply Hts, Hx.
Qed.

Lemma kept_bounded now time_period l (b : Z) :
  Forall (fun ts => ts <= b) l -> Forall (fun ts => ts <= b) (kept now time_period l).
Proof.
  rewrite !Forall_forall. intros H x Hx.
  apply list_elem_of_filter in Hx as [_ Hx]. apply H, Hx.
Qed.

Lemma wait_of_positive limit time_period now pruned d :
  wait_of limit time_period now pruned = Some d -> 0 < d.
Proof.
  unfold wait_of. destruct pruned; [discriminate|].
  case_bool_decide; [|discriminate]. intros [= <-]. lia.
Qed.

Lemma acquire_preserves_order s :
  ledger_in_order s ->
  exists s', acquire s = Ok (tt, s') /\ ledger_in_order s' /\ clock (snd s) <= clock (snd s').
Proof.
  destruct s as [self w]. intros [Hsorted Hbound]. simpl in *.
  eexists. split; [apply acquire_eq|]. cbv zeta.
  set (pruned := kept (clock w) (_time_period self) (items (_timestamps self))).
  set (d := wait_of _ _ _ pruned).
  assert (Hclock : clock w <= clock (after_wait w d)).
  { destruct d as [d'|] eqn:Hd; simpl; [|lia].
    apply wait_of_positive in Hd. lia. }
  unfold ledger_in_order. simpl. rewrite items_with_items.
  assert (Hp : Forall (fun ts => ts <= clock w) pruned) by (apply kept_bounded, Hbound).
  split; [split|exact Hclock].
  - apply StronglySorted_app_2.
    + intros x1 x2 Hx1 Hx2. apply list_elem_of_singleton in Hx2 as ->.
      rewrite Forall_forall in Hp. apply Hp, Hx1.
    + apply kept_ascending, Hsorted.
    + repeat constructor.
  - apply Forall_app. split.
    + eapply Forall_impl; [exact Hp|]. simpl. lia.
    + constructor; [exact Hclock|constructor].
Qed.

Lemma run_preserves_order delays : forall s,
  Forall (fun d => 0 <= d) delays ->
  ledger_in_order s ->
  exists s', run delays s = Ok (tt, s') /\ ledger_in_order s'.
Proof.
  induction delays as [|d ds IH]; intros s Hds Hord; simpl.
  - eexists. split; [reflexivity|exact Hord].
  - apply Forall_cons in Hds as [Hd Hds].
    destruct s as [self w]. destruct Hord as [Hsorted Hbound]. simpl in *.
    assert (Hidle : ledger_in_order (self, mkWorld (clock w + d) (events w))).
    { split; simpl; [exact Hsorted|].
      eapply Forall_impl; [exact Hbound|]. simpl. lia. }
    destruct (acquire_preserves_order _ Hidle) as (s1 & Hacq & Hord1 & _).
    destruct (IH s1 Hds Hord1) as (s' & Hrun & Hord').
    exists s'. split; [|exact Hord'].
    erewrite bind_Ok by reflexivity.
    erewrite bind_Ok by exact Hacq. exact Hrun.
Qed.

(** C9.  With a clock that never goes back (no negative delay between
    calls; sleeping only moves it forward), every state reached from a
    fresh limiter by any number of calls has its ledger in ascending order,
    no entry later than the clock (so the next appended instant is not
    earlier than any remaining entry) and, when the ledger is not empty,
    its entry at index 0 is the earliest one. *)
Theorem ledger_ordered_oldest_first limit time_period mode w delays :
  Forall (fun d => 0 <= d) delays ->
  exists s s',
    __init__ limit time_period mode w = Ok s
    /\ run delays s = Ok (tt, s')
    /\ StronglySorted Z.le (items (_timestamps (fst s')))
    /\ Forall (fun ts => ts <= clock (snd s')) (items (_timestamps (fst s')))
    /\ match items (_timestamps (fst s')) with
       | [] => True
       | oldest :: rest => Forall (fun ts => oldest <= ts) rest
       end.
Proof.
  intros Hds.
  eexists. 
  assert (Hfresh : ledger_in_order
            (mkRateLimiter limit time_period
               (if mode then ManagerLock else ThreadingLock)
               (if mode then ListProxy [] else PyList []),
             mkWorld (clock w) (events w ++ [LogInfo limit time_period]))).
  { split; destruct mode; simpl; constructor. }
  destruct (run_preserves_order delays _ Hds Hfresh) as (s' & Hrun & Hsorted & Hbound).
  exists s'. split; [apply init_eq|]. split; [exact Hrun|].
  split; [exact Hsorted|]. split; [exact Hbound|].
  destruct (items (_timestamps (fst s'))) as [|oldest rest]; [exact I|].
  apply StronglySorted_cons in Hsorted. tauto.
Qed.

Lemma ledger_ordered_oldest_first_witness :
  Forall (fun d => 0 <= d) [0; 100000; 0; 2500000] /\
  exists s s',
    __init__ 2 1 true (mkWorld new_year_2026 []) = Ok s
    /\ run [0; 100000; 0; 2500000] s = Ok (tt, s')
    /\ StronglySorted Z.le (items (_timestamps (fst s')))
    /\ Forall (fun ts => ts <= clock (snd s')) (items (_timestamps (fst s')))
    /\ match items (_timestamps (fst s')) with
       | [] => True
       | oldest :: rest => Forall (fun ts => oldest <= ts) rest
       end.
Proof.
  assert (H : Forall (fun d => 0 <= d) [0; 100000; 0; 2500000])
    by (repeat constructor; lia).
  split; [exact H|].
  apply (ledger_ordered_oldest_first 2 1 true (mkWorld new_year_2026 []) _ H).
Defined.

(** ** The admission bound *)

(** C1 does not hold on the code.  With [limit=1] and [time_period=1], a
    second call 0.1 s after the first one sleeps 0.9 s and then records the
    instant it read before sleeping: the ledger holds two admissions 0.1 s
    apart, inside one window of one second.  The instants at which the calls
    return do not respect the limit either: a third call issued as soon as
    the second one returns (at 1.0 s) is kept waiting 0.1 s only and returns
    at 1.1 s. *)
Theorem admission_bound_violated :
  exists s s2 s3,
    __init__ 1 1 false (mkWorld new_year_2026 []) = Ok s
    /\ run [0; 100000] s = Ok (tt, s2)
    /\ items (_timestamps (fst s2)) = [new_year_2026; new_year_2026 + 100000]
    /\ window_count 1 new_year_2026 (items (_timestamps (fst s2))) = 2%nat
    /\ clock (snd s2) = new_year_2026 + 1000000
    /\ run [0; 100000; 0] s = Ok (tt, s3)
    /\ clock (snd s3) = new_year_2026 + 1100000
    /\ events (snd s3)
       = [LogInfo 1 1; LogDebug 900000; Sleep 900000; LogDebug 100000; Sleep 100000]
    /\ ~ (forall limit time_period mode w delays s0 s',
            limit > 0 -> time_period > 0 ->
            Forall (fun d => 0 <= d) delays ->
            __init__ limit time_period mode w = Ok s0 ->
            run delays s0 = Ok (tt, s') ->
            forall a,
              Z.of_nat (window_count time_period a (items (_timestamps (fst s'))))
              <= limit).
Proof.
  do 3 eexists.
  split; [reflexivity|].
  split; [vm_compute; reflexivity|].
  split; [vm_compute; reflexivity|].
  split; [vm_compute; reflexivity|].
  split; [vm_compute; reflexivity|].
  split; [vm_compute; reflexivity|].
  split; [vm_compute; reflexivity|].
  split; [vm_compute; reflexivity|].
  intros H.
  specialize (H 1 1 false (mkWorld new_year_2026 []) [0; 100000] _ _
                ltac:(lia) ltac:(lia) ltac:(repeat constructor; lia)
                eq_refl eq_refl new_year_2026).
  vm_compute in H. apply H. reflexivity.
Qed.

(** * Further properties of the limiter *)

Lemma wait_of_below limit time_period now pruned :
  Z.of_nat (length pruned) < limit -> wait_of limit time_period now pruned = None.
Proof.
  intros Hfree. unfold wait_of. destruct pruned; [reflexivity|].
  rewrite bool_decide_eq_false_2; [reflexivity|]. lia.
Qed.

Lemma wait_of_limit_le_1 limit time_period now pruned :
  limit <= 1 -> wait_of limit time_period now pruned = wait_of 1 time_period now pruned.
Proof.
  intros Hl. unfold wait_of. destruct pruned as [|oldest rest]; [reflexivity|].
  simpl length. apply (f_equal (fun b : bool => if b then _ else _)).
  apply bool_decide_ext. lia.
Qed.

(** X1.  A limit below one is not rejected and not special: for every
    [limit <= 1] (zero and negative values included) a call does exactly
    what it does with [limit = 1] on the same ledger and world. *)
Theorem limit_below_one_acts_as_one limit time_period lock t w :
  limit <= 1 ->
  exists t' w',
    acquire (mkRateLimiter limit time_period lock t, w)
      = Ok (tt, (mkRateLimiter limit time_period lock t', w'))
    /\ acquire (mkRateLimiter 1 time_period lock t, w)
      = Ok (tt, (mkRateLimiter 1 time_period lock t', w')).
Proof.
  intros Hl. do 2 eexists. rewrite !acquire_eq. cbv zeta. simpl.
  rewrite (wait_of_limit_le_1 limit) by exact Hl.
  split; reflexivity.
Qed.

Lemma limit_below_one_acts_as_one_witness :
  -3 <= 1 /\
  exists t' w',
    acquire (mkRateLimiter (-3) 2 ThreadingLock (PyList [new_year_2026]),
             mkWorld (new_year_2026 + 500000) [])
      = Ok (tt, (mkRateLimiter (-3) 2 ThreadingLock t', w'))
    /\ acquire (mkRateLimiter 1 2 ThreadingLock (PyList [new_year_2026]),
                mkWorld (new_year_2026 + 500000) [])
      = Ok (tt, (mkRateLimiter 1 2 ThreadingLock t', w')).
Proof.
  split; [lia|].
  apply (limit_below_one_acts_as_one (-3) 2 ThreadingLock (PyList [new_year_2026])
           (mkWorld (new_year_2026 + 500000) [])).
  lia.
Defined.

(** X2.  A non-positive period switches the limiter off: when no entry is
    later than the clock, every entry is expired at the call, so the call
    never sleeps or logs and leaves a ledger holding its own timestamp
    only. *)
Theorem nonpositive_period_never_blocks self w :
  _time_period self <= 0 ->
  Forall (fun ts => ts <= clock w) (items (_timestamps self)) ->
  acquire (self, w)
  = Ok (tt, (with_timestamps self (with_items (_timestamps self) [clock w]), w)).
Proof.
  intros Htp Hbound. rewrite acquire_eq. cbv zeta.
  assert (Hkept : kept (clock w) (_time_period self) (items (_timestamps self)) = []).
  { unfold kept. induction Hbound as [|ts l Hts _ IH]; [reflexivity|].
    rewrite filter_cons_False; [exact IH|]. unfold timedelta_seconds. lia. }
  rewrite Hkept. reflexivity.
Qed.

Lemma nonpositive_period_never_blocks_witness :
  _time_period (mkRateLimiter 1 0 ManagerLock (ListProxy [100; 200; 200])) <= 0
  /\ Forall (fun ts => ts <= 200) [100; 200; 200]
  /\ acquire (mkRateLimiter 1 0 ManagerLock (ListProxy [100; 200; 200]), mkWorld 200 [])
     = Ok (tt, (mkRateLimiter 1 0 ManagerLock (ListProxy [200]), mkWorld 200 [])).
Proof.
  assert (H1 : _time_period (mkRateLimiter 1 0 ManagerLock (ListProxy [100; 200; 200])) <= 0)
    by (simpl; lia).
  assert (H2 : Forall (fun ts => ts <= 200) [100; 200; 200])
    by (repeat constructor; lia).
  split; [exact H1|]. split; [exact H2|].
  apply (nonpositive_period_never_blocks
           (mkRateLimiter 1 0 ManagerLock (ListProxy [100; 200; 200]))
           (mkWorld 200 []) H1 H2).
Defined.

(** X3.  With a clock that did not go back (ledger ascending, no entry
    later than the clock) a call never sleeps longer than the period, and
    a call that sleeps returns exactly when the oldest kept entry turns
    [time_period] old. *)
Theorem sleep_bounded_by_period self w :
  ledger_in_order (self, w) ->
  exists self' w',
    acquire (self, w) = Ok (tt, (self', w'))
    /\ clock w <= clock w'
    /\ clock w' <= clock w + Z.max 0 (timedelta_seconds (_time_period self))
    /\ match wait_of (_limit self) (_time_period self) (clock w)
               (kept (clock w) (_time_period self) (items (_timestamps self))) with
       | Some d =>
           head (items (_timestamps self'))
           = Some (clock w' - timedelta_seconds (_time_period self))
       | None => clock w' = clock w
       end.
Proof.
  intros [_ Hbound]. simpl in Hbound.
  do 2 eexists. split; [apply acquire_eq|]. cbv zeta.
  set (pruned := kept (clock w) (_time_period self) (items (_timestamps self))).
  assert (Hp : Forall (fun ts => ts <= clock w) pruned) by (apply kept_bounded, Hbound).
  assert (Hitems : items (_timestamps (with_timestamps self
                     (with_items (_timestamps self) (pruned ++ [clock w]))))
                   = pruned ++ [clock w])
    by (destruct self as [limit tp lk t]; destruct t; reflexivity).
  rewrite Hitems. clearbody pruned.
  unfold wait_of. destruct pruned as [|oldest rest]; simpl; [repeat split; lia|].
  apply Forall_cons in Hp as [Holdest _].
  case_bool_decide as Hd; simpl; [|repeat split; lia].
  repeat split; [lia|lia|]. f_equal. lia.
Qed.

Lemma sleep_bounded_by_period_witness :
  ledger_in_order (mkRateLimiter 2 3 ThreadingLock (PyList [1000000; 2000000]),
                   mkWorld 2500000 [])
  /\ exists self' w',
    acquire (mkRateLimiter 2 3 ThreadingLock (PyList [1000000; 2000000]),
             mkWorld 2500000 [])
      = Ok (tt, (self', w'))
    /\ 2500000 <= clock w'
    /\ clock w' <= 2500000 + Z.max 0 (timedelta_seconds 3)
    /\ match wait_of 2 3 2500000 (kept 2500000 3 [1000000; 2000000]) with
       | Some d => head (items (_timestamps self')) = Some (clock w' - timedelta_seconds 3)
       | None => clock w' = 2500000
       end.
Proof.
  assert (H : ledger_in_order
                (mkRateLimiter 2 3 ThreadingLock (PyList [1000000; 2000000]),
                 mkWorld 2500000 [])).
  { split; simpl; repeat constructor; lia. }
  split; [exact H|].
  apply (sleep_bounded_by_period _ _ H).
Defined.

Lemma run_without_wait delays : forall self w,
  Z.of_nat (length (items (_timestamps self)) + length delays) <= _limit self ->
  exists t',
    run delays (self, w)
      = Ok (tt, (with_timestamps self t',
                 mkWorld (clock w + total_delay delays) (events w)))
    /\ isinstance_list t' = isinstance_list (_timestamps self)
    /\ (length (items t') <= length (items (_timestamps self)) + length delays)%nat.
Proof.
  induction delays as [|d ds IH]; intros self w Hroom.
  - exists (_timestamps self). simpl. unfold ret.
    destruct self, w; simpl. rewrite Z.add_0_r. repeat split. lia.
  - simpl in Hroom. simpl run.
    erewrite bind_Ok by reflexivity.
    erewrite bind_Ok by apply acquire_eq. cbv zeta. simpl.
    set (pruned := kept (clock w + d) (_time_period self) (items (_timestamps self))).
    assert (Hlen : (length pruned <= length (items (_timestamps self)))%nat)
      by apply length_filter.
    rewrite wait_of_below by lia. simpl.
    set (self1 := with_timestamps self (with_items (_timestamps self) (pruned ++ [clock w + d]))).
    assert (Hitems1 : items (_timestamps self1) = pruned ++ [clock w + d])
      by apply items_with_items.
    destruct (IH self1 (mkWorld (clock w + d) (events w))) as (t' & Hrun & Hkind & Hlen').
    { rewrite Hitems1, length_app. simpl. lia. }
    exists t'. rewrite Hrun. simpl. rewrite Z.add_assoc.
    split; [reflexivity|]. split.
    + rewrite Hkind. simpl. destruct (_timestamps self); reflexivity.
    + rewrite Hitems1, length_app in Hlen'. simpl in Hlen'. lia.
Qed.

(** X4.  A burst is admitted at once: on a fresh limiter the first
    [limit] calls, whatever the time between them, never sleep and never
    log a wait.  The clock moves by the idle time only and the trace holds
    the construction line only. *)
Theorem burst_admitted_without_sleep limit time_period mode w delays :
  Z.of_nat (length delays) <= limit ->
  exists self self',
    __init__ limit time_period mode w
      = Ok (self, mkWorld (clock w) (events w ++ [LogInfo limit time_period]))
    /\ run delays (self, mkWorld (clock w) (events w ++ [LogInfo limit time_period]))
       = Ok (tt, (self', mkWorld (clock w + total_delay delays)
                                 (events w ++ [LogInfo limit time_period])))
    /\ (length (items (_timestamps self')) <= length delays)%nat.
Proof.
  intros Hk. eexists. 
  set (self := mkRateLimiter limit time_period
                 (if mode then ManagerLock else ThreadingLock)
                 (if mode then ListProxy [] else PyList [])).
  destruct (run_without_wait delays self
              (mkWorld (clock w) (events w ++ [LogInfo limit time_period])))
    as (t' & Hrun & _ & Hlen).
  { subst self. destruct mode; simpl; lia. }
  eexists. split; [apply init_eq|]. split; [exact Hrun|].
  simpl. subst self. destruct mode; simpl in *; lia.
Qed.

Lemma burst_admitted_without_sleep_witness :
  Z.of_nat (length [0; 0; 100000]) <= 3 /\
  exists self self',
    __init__ 3 2 true (mkWorld new_year_2026 [])
      = Ok (self, mkWorld new_year_2026 ([] ++ [LogInfo 3 2]))
    /\ run [0; 0; 100000] (self, mkWorld new_year_2026 ([] ++ [LogInfo 3 2]))
       = Ok (tt, (self', mkWorld (new_year_2026 + total_delay [0; 0; 100000])
                                 ([] ++ [LogInfo 3 2])))
    /\ (length (items (_timestamps self')) <= 3)%nat.
Proof.
  split; [simpl; lia|].
  apply (burst_admitted_without_sleep 3 2 true (mkWorld new_year_2026 []) [0; 0; 100000]).
  simpl. lia.
Defined.

Lemma isinstance_with_items t l : isinstance_list (with_items t l) = isinstance_list t.
Proof. destruct t; reflexivity. Qed.

Lemma run_same_contents delays : forall self1 self2 w,
  _limit self1 = _limit self2 ->
  _time_period self1 = _time_period self2 ->
  items (_timestamps self1) = items (_timestamps self2) ->
  exists self1' self2' w',
    run delays (self1, w) = Ok (tt, (self1', w'))
    /\ run delays (self2, w) = Ok (tt, (self2', w'))
    /\ isinstance_list (_timestamps self1') = isinstance_list (_timestamps self1)
    /\ isinstance_list (_timestamps self2') = isinstance_list (_timestamps self2)
    /\ items (_timestamps self1') = items (_timestamps self2').
Proof.
  induction delays as [|d ds IH]; intros self1 self2 w Hl Htp Hitems.
  - exists self1, self2, w. repeat split. exact Hitems.
  - simpl run.
    set (w1 := mkWorld (clock w + d) (events w)).
    pose proof (acquire_eq self1 w1) as H1. pose proof (acquire_eq self2 w1) as H2.
    cbv zeta in H1, H2. rewrite <- Hl, <- Htp, <- Hitems in H2.
    match type of H1 with _ = Ok (tt, (?a, ?b)) =>
      match type of H2 with _ = Ok (tt, (?c, _)) =>
        destruct (IH a c b) as (s1' & s2' & w' & Hr1 & Hr2 & Hk1 & Hk2 & Heq)
      end
    end.
    { destruct self1, self2; exact Hl. }
    { destruct self1, self2; exact Htp. }
    { simpl. rewrite !items_with_items. reflexivity. }
    simpl in Hk1, Hk2. rewrite isinstance_with_items in Hk1, Hk2.
    exists s1', s2', w'.
    split; [|split; [|split; [exact Hk1|split; [exact Hk2|exact Heq]]]].
    + erewrite bind_Ok by reflexivity. erewrite bind_Ok by exact H1. exact Hr1.
    + erewrite bind_Ok by reflexivity. erewrite bind_Ok by exact H2. exact Hr2.
Qed.

(** X5.  The two modes are one limiter: for every sequence of calls, a
    limiter built in threading mode and one built in multiprocessing mode
    with the same parameters end with the same ledger contents, the same
    clock and the same trace of sleeps and log lines, each in a ledger of
    its own kind. *)
Theorem run_modes_agree limit time_period w delays :
  exists s1 s2 self1 self2 w',
    __init__ limit time_period false w = Ok s1
    /\ __init__ limit time_period true w = Ok s2
    /\ run delays s1 = Ok (tt, (self1, w'))
    /\ run delays s2 = Ok (tt, (self2, w'))
    /\ isinstance_list (_timestamps self1) = true
    /\ isinstance_list (_timestamps self2) = false
    /\ items (_timestamps self1) = items (_timestamps self2).
Proof.
  destruct (run_same_contents delays
              (mkRateLimiter limit time_period ThreadingLock (PyList []))
              (mkRateLimiter limit time_period ManagerLock (ListProxy []))
              (mkWorld (clock w) (events w ++ [LogInfo limit time_period]))
              eq_refl eq_refl eq_refl)
    as (self1 & self2 & w' & Hr1 & Hr2 & Hk1 & Hk2 & Heq).
  do 2 eexists. exists self1, self2, w'.
  split; [reflexivity|]. split; [reflexivity|].
  split; [exact Hr1|]. split; [exact Hr2|].
  split; [exact Hk1|]. split; [exact Hk2|exact Heq].
Qed.

Lemma acquire_events self w :
  exists (s' : St) ws,
    acquire (self, w) = Ok (tt, s')
    /\ events (snd s') = events w ++ ws
    /\ Forall is_wait_event ws.
Proof.
  rewrite acquire_eq. cbv zeta.
  destruct (wait_of _ _ _ _) as [d|]; simpl.
  - eexists _, [LogDebug d; Sleep d]. split; [reflexivity|].
    split; [reflexivity|]. repeat constructor.
  - eexists _, []. split; [reflexivity|]. simpl. rewrite app_nil_r.
    split; [reflexivity|constructor].
Qed.

Lemma run_events delays : forall self w,
  exists (s' : St) ws,
    run delays (self, w) = Ok (tt, s')
    /\ events (snd s') = events w ++ ws
    /\ Forall is_wait_event ws.
Proof.
  induction delays as [|d ds IH]; intros self w.
  - exists (self, w), []. simpl. rewrite app_nil_r. repeat split. constructor.
  - simpl run.
    destruct (acquire_events self (mkWorld (clock w + d) (events w)))
      as ([self1 w1] & ws1 & Hacq & Hev1 & Hws1).
    destruct (IH self1 w1) as (s' & ws2 & Hrun & Hev2 & Hws2).
    exists s', (ws1 ++ ws2).
    split; [|split].
    + erewrite bind_Ok by reflexivity. erewrite bind_Ok by exact Hacq. exact Hrun.
    + rewrite Hev2. simpl in Hev1. rewrite Hev1. simpl. by rewrite app_assoc.
    + apply Forall_app. split; assumption.
Qed.

(** * Properties of the logger *)

Section LoggerProperties.
Variable Any : Type.
Implicit Types (s : Logger.State Any) (p : Logger.Payload Any).

Lemma log_eq env lvl msg p s :
  Logger._log env lvl msg p s
  = if bool_decide (lvl < Logger.level (fst s)) then s
    else (write_all (log_chunks env lvl msg p) (fst s), snd s ++ log_chunks env lvl msg p).
Proof.
  unfold Logger._log. case_bool_decide; [reflexivity|].
  destruct s as [[l dir fh] out]. unfold log_chunks, write_all.
  unfold Logger._get_call_info, Logger._get_process_info. simpl.
  destruct p as [d|]; simpl.
  - destruct (bool_decide (lvl = Logger.DEBUG) && negb (bool_decide (size d = 0%nat)));
      unfold Logger.write_file, Logger.print; simpl.
    + destruct fh as [h|]; simpl; rewrite <- !app_assoc; reflexivity.
    + destruct fh as [h|]; reflexivity.
  - rewrite andb_false_r. unfold Logger.write_file, Logger.print; simpl.
    destruct fh as [h|]; reflexivity.
Qed.

Lemma write_all_nil (lg : Logger.t Any) : write_all [] lg = lg.
Proof.
  destruct lg as [l dir [[name st]|]]; unfold write_all; simpl; [|reflexivity].
  by rewrite app_nil_r.
Qed.

Lemma write_all_app (c1 c2 : list (Logger.chunk Any)) (lg : Logger.t Any) :
  write_all c2 (write_all c1 lg) = write_all (c1 ++ c2) lg.
Proof.
  destruct lg as [l dir [[name st]|]]; unfold write_all; simpl; [|reflexivity].
  by rewrite app_assoc.
Qed.

Lemma exception_eq env msg s :
  exists text, Logger.exception env msg s = Logger._log env Logger.ERROR text None s.
Proof.
  unfold Logger.exception.
  destruct msg as [m|type_name text]; [destruct (Logger.exc_info env) as [[? ?]|]|];
    eexists; reflexivity.
Qed.

(** Every call either changes the level only, or writes the same chunks to
    the console and to the file. *)
Lemma perform_writes (c : Logger.call Any) s :
  exists lvl delta,
    Logger.perform c s
    = (Logger.mk lvl (Logger.log_directory (write_all delta (fst s)))
                 (Logger.file_handler (write_all delta (fst s))),
       snd s ++ delta).
Proof.
  assert (Hlog : forall env lvl msg p,
            exists lvl' delta,
              Logger._log env lvl msg p s
              = (Logger.mk lvl' (Logger.log_directory (write_all delta (fst s)))
                           (Logger.file_handler (write_all delta (fst s))),
                 snd s ++ delta)).
  { intros env lvl msg p. rewrite log_eq. case_bool_decide.
    - exists (Logger.level (fst s)), []. rewrite write_all_nil, app_nil_r.
      destruct s as [[? ? ?] ?]; reflexivity.
    - exists (Logger.level (fst s)), (log_chunks env lvl msg p). reflexivity. }
  destruct c; simpl; try apply Hlog.
  - destruct (exception_eq env msg s) as [text ->]. apply Hlog.
  - exists lvl, []. unfold Logger.set_level, write_all.
    destruct s as [[l dir [[name st]|]] out]; simpl; rewrite ?app_nil_r; reflexivity.
Qed.

(** X6.  The log file is a copy of the console: over any sequence of calls
    on the logger's interface, the chunks appended to the handler's stream
    are exactly the chunks appended to [sys.stdout], in the same order; a
    logger without a file handler stays without one, and the directory and
    file name never change. *)
Theorem console_and_file_receive_the_same (cs : list (Logger.call Any)) s :
  exists delta,
    snd (Logger.perform_all cs s) = snd s ++ delta
    /\ Logger.log_directory (fst (Logger.perform_all cs s)) = Logger.log_directory (fst s)
    /\ Logger.file_handler (fst (Logger.perform_all cs s))
       = match Logger.file_handler (fst s) with
         | Some h => Some (Logger.mkFileHandler (Logger.baseFilename h)
                                                (Logger.stream h ++ delta))
         | None => None
         end.
Proof.
  revert s. induction cs as [|c cs IH]; intros s.
  - exists []. simpl. rewrite app_nil_r. split; [reflexivity|]. split; [reflexivity|].
    destruct (Logger.file_handler (fst s)) as [[name st]|]; [|reflexivity].
    simpl. by rewrite app_nil_r.
  - unfold Logger.perform_all in *. simpl.
    destruct (perform_writes c s) as (lvl & d1 & ->).
    match goal with |- context [foldl _ ?s1 cs] => destruct (IH s1) as (d2 & Hout & Hdir & Hfh) end.
    exists (d1 ++ d2). rewrite Hout, Hdir, Hfh. simpl. rewrite app_assoc.
    split; [reflexivity|]. split; [reflexivity|].
    destruct (Logger.file_handler (fst s)) as [[name st]|]; simpl; [|reflexivity].
    by rewrite app_assoc.
Qed.

(** X7.  Raising the threshold only removes output: for the same calls,
    what a logger prints is a sub-sequence of what a logger with a lower
    or equal level prints. *)
Theorem higher_threshold_prints_less (cs : list (Logger.call Any)) s1 s2 :
  Logger.level (fst s1) <= Logger.level (fst s2) ->
  sublist (snd s2) (snd s1) ->
  Logger.level (fst (Logger.perform_all cs s1)) <= Logger.level (fst (Logger.perform_all cs s2))
  /\ sublist (snd (Logger.perform_all cs s2)) (snd (Logger.perform_all cs s1)).
Proof.
  revert s1 s2. induction cs as [|c cs IH]; intros s1 s2 Hlvl Hsub; [split; assumption|].
  unfold Logger.perform_all in *. simpl. apply IH.
  - assert (Hlog : forall env lvl msg p,
              Logger.level (fst (Logger._log env lvl msg p s1))
              <= Logger.level (fst (Logger._log env lvl msg p s2))).
    { intros. rewrite !log_eq. repeat case_bool_decide; simpl; lia. }
    destruct c; simpl; try apply Hlog.
    + unfold Logger.exception.
      destruct msg; [destruct (Logger.exc_info env) as [[? ?]|]|]; apply Hlog.
    + lia.
  - assert (Hlog : forall env lvl msg p,
              sublist (snd (Logger._log env lvl msg p s2))
                      (snd (Logger._log env lvl msg p s1))).
    { intros. rewrite !log_eq. repeat case_bool_decide; simpl;
        first [exact Hsub | lia | by apply sublist_inserts_r
              | by apply sublist_app]. }
    destruct c; simpl; try apply Hlog.
    + unfold Logger.exception.
      destruct msg; [destruct (Logger.exc_info env) as [[? ?]|]|]; apply Hlog.
    + exact Hsub.
Qed.

End LoggerProperties.

Lemma higher_threshold_prints_less_witness :
  Logger.level (fst (sample_logger Logger.DEBUG)) 
    <= Logger.level (fst (sample_logger Logger.INFO))
  /\ sublist (snd (sample_logger Logger.INFO))
             (snd (sample_logger Logger.DEBUG))
  /\ Logger.level (fst (Logger.perform_all
         [Logger.CallDebug sample_env (Logger.Str "waiting") None;
          Logger.CallError sample_env (Logger.Str "failed")]
         (sample_logger Logger.DEBUG)))
     <= Logger.level (fst (Logger.perform_all
         [Logger.CallDebug sample_env (Logger.Str "waiting") None;
          Logger.CallError sample_env (Logger.Str "failed")]
         (sample_logger Logger.INFO)))
  /\ sublist
       (snd (Logger.perform_all
         [Logger.CallDebug sample_env (Logger.Str "waiting") None;
          Logger.CallError sample_env (Logger.Str "failed")]
         (sample_logger Logger.INFO)))
       (snd (Logger.perform_all
         [Logger.CallDebug sample_env (Logger.Str "waiting") None;
          Logger.CallError sample_env (Logger.Str "failed")]
         (sample_logger Logger.DEBUG))).
Proof.
  assert (H1 : Logger.level (fst (sample_logger Logger.DEBUG))
               <= Logger.level (fst (sample_logger Logger.INFO)))
    by (vm_compute; discriminate).
  assert (H2 : sublist (snd (sample_logger Logger.INFO))
                       (snd (sample_logger Logger.DEBUG)))
    by constructor.
  split; [exact H1|]. split; [exact H2|].
  apply (higher_threshold_prints_less Z _ _ _ H1 H2).
Defined.

Section LimiterAndLogger.
Variable Any : Type.

Lemma perform_all_cons (c : Logger.call Any) cs (s : Logger.State Any) :
  Logger.perform_all (c :: cs) s = Logger.perform_all cs (Logger.perform c s).
Proof. reflexivity. Qed.

Lemma wait_events_are_silent (env_at : nat -> Logger.Env) ws :
  forall i (lg : Logger.t Any) out,
    Forall is_wait_event ws ->
    Logger.DEBUG < Logger.level lg ->
    Logger.perform_all (logger_calls_from env_at i ws) (lg, out) = (lg, out).
Proof.
  induction ws as [|e ws IH]; intros i lg out Hws Hlvl; [reflexivity|].
  apply Forall_cons in Hws as [He Hws].
  destruct e as [? ?|d|d]; simpl in *; [contradiction| |].
  - unfold Logger.perform_all in *. simpl.
    unfold Logger.debug. rewrite log_eq. simpl.
    rewrite bool_decide_eq_true_2 by exact Hlvl. apply IH; assumption.
  - apply IH; assumption.
Qed.

(** X8.  With a logger left at its default level [INFO] (any level above
    [DEBUG] and not above [INFO]) the limiter is heard once: whatever the
    calls and however long they wait, the logger calls made by the
    construction and the run print the construction line and nothing else;
    the waits are not reported. *)
Theorem default_logger_hides_waits limit time_period mode c delays
  (env_at : nat -> Logger.Env) (lg : Logger.t Any) out :
  Logger.DEBUG < Logger.level lg <= Logger.INFO ->
  exists (s s' : St),
    __init__ limit time_period mode (mkWorld c []) = Ok s
    /\ run delays s = Ok (tt, s')
    /\ Logger.perform_all (logger_calls_from env_at 0 (events (snd s'))) (lg, out)
       = Logger.info (env_at 0%nat)
           (Logger.Str ("RateLimiter initialized with " +:+ pretty limit
                        +:+ " requests per " +:+ pretty time_period +:+ " seconds"))
           (lg, out)
    /\ snd (Logger.perform_all (logger_calls_from env_at 0 (events (snd s'))) (lg, out))
       = out ++ log_chunks (env_at 0%nat) Logger.INFO
                  (Logger.Str ("RateLimiter initialized with " +:+ pretty limit
                               +:+ " requests per " +:+ pretty time_period +:+ " seconds"))
                  None.
Proof.
  intros [Hlo Hhi].
  eexists. 
  destruct (run_events delays
              (mkRateLimiter limit time_period
                 (if mode then ManagerLock else ThreadingLock)
                 (if mode then ListProxy [] else PyList []))
              (mkWorld c ([] ++ [LogInfo limit time_period])))
    as (s' & ws & Hrun & Hev & Hws).
  exists s'. split; [apply init_eq|]. split; [exact Hrun|].
  rewrite Hev. cbn [events snd app logger_calls_from].
  rewrite !perform_all_cons. cbn [Logger.perform].
  unfold Logger.info. rewrite log_eq. cbn [fst snd].
  rewrite bool_decide_eq_false_2 by (unfold Logger.INFO in *; lia).
  rewrite wait_events_are_silent; [split; reflexivity|exact Hws|exact Hlo].
Qed.

End LimiterAndLogger.

Lemma default_logger_hides_waits_witness :
  Logger.DEBUG < Logger.level (fst (sample_logger Logger.INFO)) <= Logger.INFO
  /\ exists (s s' : St),
    __init__ 1 1 false (mkWorld new_year_2026 []) = Ok s
    /\ run [0; 100000] s = Ok (tt, s')
    /\ Logger.perform_all (logger_calls_from (fun _ => sample_env) 0 (events (snd s')))
         (sample_logger Logger.INFO)
       = Logger.info sample_env
           (Logger.Str ("RateLimiter initialized with " +:+ pretty 1
                        +:+ " requests per " +:+ pretty 1 +:+ " seconds"))
           (sample_logger Logger.INFO)
    /\ snd (Logger.perform_all (logger_calls_from (fun _ => sample_env) 0 (events (snd s')))
              (sample_logger Logger.INFO))
       = snd (sample_logger Logger.INFO) ++ log_chunks sample_env Logger.INFO
                  (Logger.Str ("RateLimiter initialized with " +:+ pretty 1
                               +:+ " requests per " +:+ pretty 1 +:+ " seconds"))
                  None.
Proof.
  assert (H : Logger.DEBUG < Logger.level (fst (sample_logger Logger.INFO))
              <= Logger.INFO) by (vm_compute; split; [reflexivity|discriminate]).
  split; [exact H|].
  apply (default_logger_hides_waits Z 1 1 false new_year_2026 [0; 100000]
           (fun _ => sample_env) (fst (sample_logger Logger.INFO)) [] H).
Defined.

(** * Properties of the HTTP helpers *)

Lemma size_loop_spec fuel : forall (size : Q) (idx : nat),
  (idx <= 4)%nat -> (4 - idx <= fuel)%nat ->
  exists (q : Q) (j : nat),
    Logger.size_loop fuel size idx = Some (q, j)
    /\ (idx <= j <= 4)%nat
    /\ (q * pow1024 (j - idx) == size)%Q
    /\ (j = idx /\ q = size \/ (idx < j)%nat /\ (1 <= q)%Q /\ (1024 <= size)%Q)
    /\ (j = 4%nat \/ (q < 1024)%Q).
Proof.
  induction fuel as [|fuel IH]; intros size idx Hidx Hfuel.
  - assert (idx = 4%nat) as -> by lia. simpl.
    rewrite andb_false_r. exists size, 4%nat. simpl.
    split; [reflexivity|]. split; [lia|]. split; [ring|].
    split; left; [split|]; reflexivity.
  - simpl. destruct (Qle_bool 1024 size) eqn:Hbig; simpl.
    + case_bool_decide as Hlt; simpl in Hlt.
      * destruct (IH (size / 1024)%Q (S idx)) as (q & j & Hloop & Hj & Hval & Hlow & Hhigh);
          [lia|lia|].
        exists q, j. split; [exact Hloop|]. split; [lia|].
        apply Qle_bool_iff in Hbig.
        assert (Hdiv : (1 <= size / 1024)%Q).
        { apply Qle_shift_div_l; [reflexivity|]. rewrite Qmult_1_l. exact Hbig. }
        assert (Hq : (q * pow1024 (j - idx) == size)%Q).
        { replace (j - idx)%nat with (S (j - S idx)) by lia. simpl.
          transitivity (1024 * (q * pow1024 (j - S idx)))%Q; [ring|].
          rewrite Hval. field. }
        split; [exact Hq|]. split; [|exact Hhigh].
        right. split; [lia|]. split; [|exact Hbig].
        destruct Hlow as [[_ ->]|(_ & Hlow & _)]; [exact Hdiv|exact Hlow].
      * exists size, idx. rewrite Nat.sub_diag. simpl.
        split; [reflexivity|]. split; [lia|]. split; [ring|].
        split; left; [split; reflexivity|lia].
    + exists size, idx. rewrite Nat.sub_diag. simpl.
      split; [reflexivity|]. split; [lia|]. split; [ring|].
      split; [left; split; reflexivity|].
      right. apply Qnot_le_lt. intros Hle. apply Qle_bool_iff in Hle. congruence.
Qed.

Lemma human_readable_size_total (size : Q) :
  exists (q : Q) (unit : string),
    Logger._format_human_readable_size size = Some (Logger.Returns (q, unit)).
Proof.
  destruct (size_loop_spec (length Logger.units) size 0)
    as (q & j & Hloop & Hj & _); [lia|simpl; lia|].
  assert (Hunit : exists unit, Logger.units !! j = Some unit).
  { apply lookup_lt_is_Some. simpl. lia. }
  destruct Hunit as [unit Hunit]. exists q, unit.
  unfold Logger._format_human_readable_size, Logger._format_human_readable_size_fuel.
  by rewrite Hloop, Hunit.
Qed.

(** X9.  [_format_human_readable_size] always returns: the loop ends
    within four divisions and the unit index stays inside the table (no
    [IndexError]).  The number it prints, multiplied back by [1024] to the
    power of the unit's index, is the size it was given. *)
Theorem human_readable_size_preserves_quantity (size : Q) :
  exists (q : Q) (unit : string) (idx : nat),
    Logger._format_human_readable_size size = Some (Logger.Returns (q, unit))
    /\ Logger.units !! idx = Some unit
    /\ (q * pow1024 idx == size)%Q.
Proof.
  destruct (size_loop_spec (length Logger.units) size 0)
    as (q & j & Hloop & Hj & Hval & _); [lia|simpl; lia|].
  rewrite Nat.sub_0_r in Hval.
  assert (Hunit : exists unit, Logger.units !! j = Some unit).
  { apply lookup_lt_is_Some. simpl. lia. }
  destruct Hunit as [unit Hunit].
  exists q, unit, j.
  unfold Logger._format_human_readable_size, Logger._format_human_readable_size_fuel.
  rewrite Hloop, Hunit. repeat split. exact Hval.
Qed.

Lemma round_half_even_bounds (x : Q) :
  Qfloor x <= Logger.round_half_even x <= Qfloor x + 1.
Proof.
  unfold Logger.round_half_even.
  destruct (Qcompare _ _); [destruct (Z.even _)| |]; lia.
Qed.

Lemma hundredths_lower (q : Q) : (1 <= q)%Q -> 100 <= Logger.hundredths q.
Proof.
  intros Hq. unfold Logger.hundredths.
  pose proof (round_half_even_bounds (q * 100)) as [Hlow _].
  assert (Hfloor : Qfloor (inject_Z 100) <= Qfloor (q * 100)).
  { apply Qfloor_resp_le.
    setoid_replace (inject_Z 100) with (1 * 100)%Q using relation Qeq by reflexivity.
    apply Qmult_le_compat_r; [exact Hq|discriminate]. }
  rewrite Qfloor_Z in Hfloor. lia.
Qed.

Lemma hundredths_upper (q : Q) : (q < 1024)%Q -> Logger.hundredths q <= 102400.
Proof.
  intros Hq. unfold Logger.hundredths.
  pose proof (round_half_even_bounds (q * 100)) as [_ Hhigh].
  assert (Hlt : (q * 100 < inject_Z 102400)%Q).
  { setoid_replace (inject_Z 102400) with (1024 * 100)%Q using relation Qeq by reflexivity.
    apply Qmult_lt_compat_r; [reflexivity|exact Hq]. }
  assert (Hfloor : Qfloor (q * 100) < 102400).
  { rewrite Zlt_Qlt. eapply Qle_lt_trans; [apply Qfloor_le|exact Hlt]. }
  lia.
Qed.

(** X10.  The number that [_format_human_readable_size] prints is the
    scaled size rounded to two decimals.  A size below 1024 is printed in
    bytes; with any larger unit the printed number is at least 1.00; with
    any unit but TiB it is at most 1024.00, and 1024.00 is reached, since
    the rounding comes after the choice of the unit: 1048575 bytes print
    as [1024.00 KiB] (see [human_readable_size_examples]). *)
Theorem human_readable_size_range (size : Q) :
  exists (q : Q) (unit : string),
    Logger._format_human_readable_size size = Some (Logger.Returns (q, unit))
    /\ Logger._format_human_readable_size_str size
       = Some (Logger.Returns (Logger.format_2f q +:+ " " +:+ unit))
    /\ (unit = "B" /\ q = size
        \/ unit <> "B" /\ (1024 <= size)%Q /\ 100 <= Logger.hundredths q)
    /\ (unit = "TiB" \/ Logger.hundredths q <= 102400).
Proof.
  destruct (size_loop_spec (length Logger.units) size 0)
    as (q & j & Hloop & Hj & _ & Hlow & Hhigh); [lia|simpl; lia|].
  assert (Hlow' : j = 0%nat /\ q = size
                  \/ j <> 0%nat /\ (1024 <= size)%Q /\ 100 <= Logger.hundredths q).
  { destruct Hlow as [[-> ->]|(Hj' & Hq & Hs)]; [left; split; reflexivity|].
    right. split; [lia|]. split; [exact Hs|apply hundredths_lower, Hq]. }
  assert (Hhigh' : j = 4%nat \/ Logger.hundredths q <= 102400).
  { destruct Hhigh as [->|Hq]; [left; reflexivity|right; apply hundredths_upper, Hq]. }
  unfold Logger._format_human_readable_size_str.
  unfold Logger._format_human_readable_size, Logger._format_human_readable_size_fuel.
  rewrite Hloop. clear Hlow Hhigh Hloop.
  destruct j as [|[|[|[|[|j]]]]]; [| | | | |lia]; simpl; eexists _, _;
    (split; [reflexivity|]); (split; [reflexivity|]); split.
  - destruct Hlow' as [[_ ->]|[Hne _]]; [left; split; reflexivity|lia].
  - destruct Hhigh' as [Hj'|Hq]; [lia|right; exact Hq].
  - destruct Hlow' as [[Hj' _]|(_ & Hs & Hq)]; [lia|].
    right. split; [discriminate|split; assumption].
  - destruct Hhigh' as [Hj'|Hq]; [lia|right; exact Hq].
  - destruct Hlow' as [[Hj' _]|(_ & Hs & Hq)]; [lia|].
    right. split; [discriminate|split; assumption].
  - destruct Hhigh' as [Hj'|Hq]; [lia|right; exact Hq].
  - destruct Hlow' as [[Hj' _]|(_ & Hs & Hq)]; [lia|].
    right. split; [discriminate|split; assumption].
  - destruct Hhigh' as [Hj'|Hq]; [lia|right; exact Hq].
  - destruct Hlow' as [[Hj' _]|(_ & Hs & Hq)]; [lia|].
    right. split; [discriminate|split; assumption].
  - left; reflexivity.
Qed.

(** Printed texts: the rounding may show 1024.00 with a unit below TiB. *)
Example human_readable_size_examples :
  Logger._format_human_readable_size_str 0 = Some (Logger.Returns "0.00 B")
  /\ Logger._format_human_readable_size_str 1023 = Some (Logger.Returns "1023.00 B")
  /\ Logger._format_human_readable_size_str 1536 = Some (Logger.Returns "1.50 KiB")
  /\ Logger._format_human_readable_size_str 1048575
     = Some (Logger.Returns "1024.00 KiB")
  /\ Logger._format_human_readable_size_str 1048576 = Some (Logger.Returns "1.00 MiB")
  /\ Logger._format_human_readable_size_str 1100
     = Some (Logger.Returns "1.07 KiB").
Proof. vm_compute. repeat split. Qed.

Lemma split_no_separator sep s :
  Forall (fun word => Logger.contains sep word = false) (Logger.split sep s).
Proof.
  induction s as [|c s IH]; simpl.
  - repeat constructor.
  - destruct (Ascii.eqb c sep) eqn:Hc.
    + constructor; [reflexivity|exact IH].
    + destruct (Logger.split sep s) as [|word words].
      * repeat constructor. simpl. by rewrite Hc.
      * apply Forall_cons in IH as [Hword Hwords].
        constructor; [|exact Hwords]. simpl. by rewrite Hc, Hword.
Qed.

Lemma dict_snoc {V} (pairs : list (string * V)) k v :
  Logger.dict (pairs ++ [(k, v)]) = <[k := v]> (Logger.dict pairs).
Proof. unfold Logger.dict. by rewrite foldl_snoc. Qed.

Lemma dict_map_lookup {V W} (f : V -> W) (pairs : list (string * V)) k :
  Logger.dict (map (fun kv => (fst kv, f (snd kv))) pairs) !! k
  = f <$> Logger.dict pairs !! k.
Proof.
  induction pairs as [|[k' v'] pairs IH] using rev_ind.
  - unfold Logger.dict. simpl. by rewrite !lookup_empty.
  - rewrite map_app. simpl. rewrite !dict_snoc.
    destruct (decide (k' = k)) as [->|Hne].
    + by rewrite !lookup_insert_eq.
    + rewrite !lookup_insert_ne by exact Hne. exact IH.
Qed.

Lemma switches_lookup (params : list string) : forall (d : gmap string Logger.qvalue) k,
  foldl (fun query_params param =>
           if negb (Logger.contains "="%char param) && bool_decide (param ≠ "")
           then <[param := Logger.QTrue]> query_params
           else query_params) d params !! k
  = if bool_decide (k ∈ params /\ is_switch k = true) then Some Logger.QTrue else d !! k.
Proof.
  induction params as [|param params IH]; intros d k; cbn [foldl].
  - rewrite bool_decide_eq_false_2; [reflexivity|]. intros [H _]. by apply elem_of_nil in H.
  - rewrite IH. change (negb (Logger.contains "="%char param) && bool_decide (param ≠ ""))
      with (is_switch param).
    destruct (bool_decide (k ∈ params /\ is_switch k = true)) eqn:Htail.
    + apply bool_decide_eq_true in Htail as [Hin Hsw].
      rewrite bool_decide_eq_true_2; [reflexivity|].
      split; [by apply list_elem_of_further|exact Hsw].
    + apply bool_decide_eq_false in Htail.
      destruct (decide (param = k)) as [->|Hne].
      * destruct (is_switch k) eqn:Hsw.
        -- rewrite lookup_insert_eq.
           rewrite bool_decide_eq_true_2; [reflexivity|]. split; [left|reflexivity].
        -- rewrite bool_decide_eq_false_2; [reflexivity|]. intros [_ H]. discriminate.
      * rewrite (bool_decide_eq_false_2 (k ∈ param :: params /\ is_switch k = true)).
        -- destruct (is_switch param); [by rewrite lookup_insert_ne|reflexivity].
        -- intros [Hin Hsw]. apply elem_of_cons in Hin as [->|Hin];
             [congruence|tauto].
Qed.

Section QueryParams.
Variable urlparse : string -> Logger.outcome Logger.ParseResult.
Variable parse_qsl : string -> list (string * string).

Lemma parse_query_params_spec url parsed_url :
  urlparse url = Logger.Returns parsed_url ->
  exists query_params,
    Logger._parse_query_params urlparse parse_qsl url = Logger.Returns query_params
    /\ forall k,
        query_params !! k
        = if bool_decide (k ∈ Logger.split "&"%char (Logger.query parsed_url)
                          /\ is_switch k = true)
          then Some Logger.QTrue
          else Logger.QStr <$> Logger.dict (parse_qsl (Logger.query parsed_url)) !! k.
Proof.
  intros Hparse. unfold Logger._parse_query_params. rewrite Hparse.
  eexists. split; [reflexivity|]. intros k.
  case_bool_decide as Hq.
  - rewrite switches_lookup. by rewrite dict_map_lookup.
  - rewrite dict_map_lookup.
    rewrite bool_decide_eq_false_2; [reflexivity|].
    intros [Hin Hsw].
    assert (Hq' : Logger.query parsed_url = "")
      by (destruct (decide (Logger.query parsed_url = "")); [assumption|contradiction]).
    rewrite Hq' in Hin. simpl in Hin.
    apply list_elem_of_singleton in Hin as ->. discriminate Hsw.
Qed.

(** X11.  [_parse_query_params] on a URL that [urlparse] accepts returns a
    dictionary in which every switch (a non-empty [&]-separated piece of
    the query without [=]) is bound to [True], also when a [key=value] pair
    of the same name stands before or after it, and in which every key
    that is not a switch has the value of its last pair in
    [parse_qsl(query)], or no value when it has no pair. *)
Theorem parse_query_params_lookup url parsed_url :
  urlparse url = Logger.Returns parsed_url ->
  exists query_params,
    Logger._parse_query_params urlparse parse_qsl url = Logger.Returns query_params
    /\ (forall param,
          param ∈ Logger.split "&"%char (Logger.query parsed_url) ->
          Logger.contains "="%char param = false -> param <> "" ->
          query_params !! param = Some Logger.QTrue)
    /\ (forall k,
          ~ (k ∈ Logger.split "&"%char (Logger.query parsed_url) /\ is_switch k = true) ->
          query_params !! k
          = Logger.QStr <$> Logger.dict (parse_qsl (Logger.query parsed_url)) !! k).
Proof.
  intros Hparse.
  destruct (parse_query_params_spec url parsed_url Hparse) as (qp & Hcall & Hlookup).
  exists qp. split; [exact Hcall|]. split.
  - intros param Hin Heq Hne. rewrite Hlookup.
    rewrite bool_decide_eq_true_2; [reflexivity|]. split; [exact Hin|].
    unfold is_switch. rewrite Heq. simpl. by apply bool_decide_eq_true_2.
  - intros k Hnot. rewrite Hlookup. by rewrite bool_decide_eq_false_2.
Qed.

(** X12.  A key bound to [True] by [_parse_query_params] is never empty
    and contains neither [=] nor [&], whatever [urlparse] and [parse_qsl]
    return. *)
Theorem switch_keys_are_plain_names url query_params k :
  Logger._parse_query_params urlparse parse_qsl url = Logger.Returns query_params ->
  query_params !! k = Some Logger.QTrue ->
  k <> ""
  /\ Logger.contains "="%char k = false
  /\ Logger.contains "&"%char k = false.
Proof.
  intros Hcall Hk.
  destruct (urlparse url) as [parsed_url|e] eqn:Hparse;
    [|unfold Logger._parse_query_params in Hcall; rewrite Hparse in Hcall; discriminate].
  destruct (parse_query_params_spec url parsed_url Hparse) as (qp & Hcall' & Hlookup).
  rewrite Hcall in Hcall'. injection Hcall' as <-.
  rewrite Hlookup in Hk. case_bool_decide as Hsw.
  - destruct Hsw as [Hin Hsw]. unfold is_switch in Hsw.
    apply andb_true_iff in Hsw as [Heq Hne].
    apply negb_true_iff in Heq. apply bool_decide_eq_true in Hne.
    split; [exact Hne|]. split; [exact Heq|].
    pose proof (split_no_separator "&"%char (Logger.query parsed_url)) as Hall.
    rewrite Forall_forall in Hall. apply Hall, Hin.
  - destruct (Logger.dict _ !! k); discriminate.
Qed.

End QueryParams.

Lemma parse_query_params_lookup_witness :
  sample_urlparse "https://example.org?a=1&flag&b=2&a=3"
    = Logger.Returns (Logger.mkParseResult "example.org" "" "a=1&flag&b=2&a=3")
  /\ exists query_params,
    Logger._parse_query_params sample_urlparse sample_parse_qsl
      "https://example.org?a=1&flag&b=2&a=3" = Logger.Returns query_params
    /\ (forall param,
          param ∈ Logger.split "&"%char "a=1&flag&b=2&a=3" ->
          Logger.contains "="%char param = false -> param <> "" ->
          query_params !! param = Some Logger.QTrue)
    /\ (forall k,
          ~ (k ∈ Logger.split "&"%char "a=1&flag&b=2&a=3" /\ is_switch k = true) ->
          query_params !! k
          = Logger.QStr <$> Logger.dict (sample_parse_qsl "a=1&flag&b=2&a=3") !! k).
Proof.
  split; [reflexivity|].
  apply (parse_query_params_lookup sample_urlparse sample_parse_qsl
           "https://example.org?a=1&flag&b=2&a=3"
           (Logger.mkParseResult "example.org" "" "a=1&flag&b=2&a=3") eq_refl).
Defined.

Lemma switch_keys_are_plain_names_witness :
  exists query_params,
    Logger._parse_query_params sample_urlparse sample_parse_qsl
      "https://example.org?a=1&flag&b=2&a=3" = Logger.Returns query_params
    /\ query_params !! "flag" = Some Logger.QTrue
    /\ ("flag" <> ""
        /\ Logger.contains "="%char "flag" = false
        /\ Logger.contains "&"%char "flag" = false).
Proof.
  eexists. split; [reflexivity|]. split; [vm_compute; reflexivity|].
  eapply (switch_keys_are_plain_names sample_urlparse sample_parse_qsl
            "https://example.org?a=1&flag&b=2&a=3").
  - reflexivity.
  - vm_compute. reflexivity.
Defined.

Section HttpResponse.
Variable urlparse : string -> Logger.outcome Logger.ParseResult.
Variable parse_qsl : string -> list (string * string).

Lemma format_http_response_failure response e :
  urlparse (Logger.url response) = Logger.Raises e ->
  Logger._format_http_response urlparse parse_qsl response
  = Some (Logger.Failure
            ("Failed to format HTTP response: "
             +:+ match e with
                 | Logger.ValueError text => text
                 | Logger.AttributeError name => name
                 | Logger.IndexError => "list index out of range"
                 end)
            (Logger.status_code response)).
Proof.
  intros Hparse.
  destruct (human_readable_size_total
              (inject_Z (Z.of_nat (String.length (Logger.content response)))))
    as (q & unit & Hsize).
  unfold Logger._format_http_response. by rewrite Hsize, Hparse.
Qed.

Lemma format_http_response_details response parsed_url :
  urlparse (Logger.url response) = Logger.Returns parsed_url ->
  exists size query_params,
    Logger._format_human_readable_size
      (inject_Z (Z.of_nat (String.length (Logger.content response))))
      = Some (Logger.Returns size)
    /\ Logger._parse_query_params urlparse parse_qsl (Logger.url response)
       = Logger.Returns query_params
    /\ Logger._format_http_response urlparse parse_qsl response
       = Some (Logger.Details
                 (Logger.mkRequestDetails
                    (Logger.netloc parsed_url)
                    (if bool_decide (Logger.path parsed_url ≠ "")
                     then Logger.path parsed_url else "/")
                    (Logger.request_method (Logger.request response))
                    (if bool_decide (is_Some (Logger.request_headers
                                                (Logger.request response)
                                              !! "Authorization"))
                     then <["Authorization" := "[REDACTED]"]>
                            (Logger.request_headers (Logger.request response))
                     else Logger.request_headers (Logger.request response))
                    query_params)
                 (Logger.mkResponseDetails
                    (Logger.status_code response)
                    ((Logger.elapsed response # 1000000) * 1000)
                    size (Logger.headers response))).
Proof.
  intros Hparse.
  destruct (human_readable_size_total
              (inject_Z (Z.of_nat (String.length (Logger.content response)))))
    as (q & unit & Hsize).
  destruct (parse_query_params_spec urlparse parse_qsl _ _ Hparse) as (qp & Hqp & _).
  exists (q, unit), qp. split; [exact Hsize|]. split; [exact Hqp|].
  unfold Logger._format_http_response. by rewrite Hsize, Hparse, Hqp.
Qed.

(** X13.  The credentials of the request are not logged: in the details
    returned for a response whose URL parses, the header [Authorization],
    when the request has one, reads [[REDACTED]]; no header is added or
    removed and every other request header keeps its value.  The match is
    on that exact name, so a header spelled [authorization] is passed on
    as it is, and the headers of the response are never touched. *)
Theorem authorization_header_is_redacted response parsed_url :
  urlparse (Logger.url response) = Logger.Returns parsed_url ->
  exists req resp,
    Logger._format_http_response urlparse parse_qsl response
      = Some (Logger.Details req resp)
    /\ Logger.d_headers req !! "Authorization"
       = (fun _ => "[REDACTED]")
           <$> Logger.request_headers (Logger.request response) !! "Authorization"
    /\ (forall k, k <> "Authorization" ->
          Logger.d_headers req !! k
          = Logger.request_headers (Logger.request response) !! k)
    /\ dom (Logger.d_headers req) = dom (Logger.request_headers (Logger.request response))
    /\ Logger.d_response_headers resp = Logger.headers response.
Proof.
  intros Hparse.
  destruct (format_http_response_details response parsed_url Hparse)
    as (size & qp & _ & _ & Heq).
  do 2 eexists. split; [exact Heq|]. simpl.
  set (hs := Logger.request_headers (Logger.request response)).
  destruct (hs !! "Authorization") as [v|] eqn:Hv.
  - rewrite bool_decide_eq_true_2 by (by eexists).
    split; [by rewrite lookup_insert_eq|].
    split; [intros k Hk; by rewrite lookup_insert_ne|].
    split; [|reflexivity].
    rewrite dom_insert_L.
    assert (Hin : "Authorization" ∈ dom hs) by (apply elem_of_dom; by eexists).
    apply subseteq_union_1_L, singleton_subseteq_l, Hin.
  - rewrite bool_decide_eq_false_2 by (intros [? ?]; discriminate).
    split; [exact Hv|]. repeat split.
Qed.

(** X14.  [_format_http_response] always returns a dictionary and never
    raises: when [urlparse] rejects the URL the result is the error
    dictionary, which carries the status code of the response and the text
    of the exception; otherwise it is the dictionary of details, with the
    status code unchanged and a path that is never empty ([/] stands for
    an empty path). *)
Theorem format_http_response_always_returns response :
  exists details,
    Logger._format_http_response urlparse parse_qsl response = Some details
    /\ match urlparse (Logger.url response), details with
       | Logger.Raises (Logger.ValueError text), Logger.Failure error status =>
           error = "Failed to format HTTP response: " +:+ text
           /\ status = Logger.status_code response
       | Logger.Raises _, Logger.Failure _ status => status = Logger.status_code response
       | Logger.Returns parsed_url, Logger.Details req resp =>
           Logger.d_status_code resp = Logger.status_code response
           /\ Logger.d_host req = Logger.netloc parsed_url
           /\ Logger.d_path req <> ""
           /\ (Logger.path parsed_url = "" /\ Logger.d_path req = "/"
               \/ Logger.d_path req = Logger.path parsed_url)
       | _, _ => False
       end.
Proof.
  destruct (urlparse (Logger.url response)) as [parsed_url|e] eqn:Hparse.
  - destruct (format_http_response_details response parsed_url Hparse)
      as (size & qp & _ & _ & Heq).
    eexists. split; [exact Heq|]. simpl.
    split; [reflexivity|]. split; [reflexivity|].
    case_bool_decide as Hpath.
    + split; [exact Hpath|right; reflexivity].
    + split; [discriminate|]. left. split; [|reflexivity].
      destruct (decide (Logger.path parsed_url = "")); [assumption|contradiction].
  - eexists. split; [apply (format_http_response_failure response e Hparse)|].
    destruct e; simpl; auto.
Qed.

Section LogHttpResponse.
Variable Any : Type.
Variable as_payload : Logger.http_details -> gmap string Any.

(** X15.  [log_http_response] never logs anything.  With a level above
    [DEBUG] it returns at once; with a level at or below [DEBUG] line 247
    looks up [format_http_response], a name the class does not bind (the
    method is [_format_http_response]), and the call ends in
    [AttributeError] before anything is written. *)
Theorem log_http_response_never_logs env response message (s : Logger.State Any) :
  Logger.log_http_response urlparse parse_qsl as_payload env response message s
  = Some (if bool_decide (Logger.level (fst s) <= Logger.DEBUG)
          then Logger.Raises (Logger.AttributeError "format_http_response")
          else Logger.Returns s).
Proof.
  unfold Logger.log_http_response. case_bool_decide; reflexivity.
Qed.

End LogHttpResponse.

End HttpResponse.

Lemma authorization_header_is_redacted_witness :
  sample_urlparse (Logger.url sample_response)
    = Logger.Returns (Logger.mkParseResult "example.org" "" "a=1&flag&b=2&a=3")
  /\ exists req resp,
    Logger._format_http_response sample_urlparse sample_parse_qsl sample_response
      = Some (Logger.Details req resp)
    /\ Logger.d_headers req !! "Authorization"
       = (fun _ => "[REDACTED]")
           <$> Logger.request_headers (Logger.request sample_response) !! "Authorization"
    /\ (forall k, k <> "Authorization" ->
          Logger.d_headers req !! k
          = Logger.request_headers (Logger.request sample_response) !! k)
    /\ dom (Logger.d_headers req)
       = dom (Logger.request_headers (Logger.request sample_response))
    /\ Logger.d_response_headers resp = Logger.headers sample_response.
Proof.
  split; [reflexivity|].
  apply (authorization_header_is_redacted sample_urlparse sample_parse_qsl
           sample_response (Logger.mkParseResult "example.org" "" "a=1&flag&b=2&a=3")
           eq_refl).
Defined.

(** The sample response, formatted: the secret of [Authorization] is
    gone, the one of [authorization] is still there. *)
Example sample_response_headers :
  match Logger._format_http_response sample_urlparse sample_parse_qsl sample_response with
  | Some (Logger.Details req _) =>
      Logger.d_headers req !! "Authorization" = Some "[REDACTED]"
      /\ Logger.d_headers req !! "authorization" = Some "Basic secret"
      /\ Logger.d_path req = "/"
      /\ Logger.d_query_params req !! "flag" = Some Logger.QTrue
      /\ Logger.d_query_params req !! "a" = Some (Logger.QStr "3")
  | _ => False
  end.
Proof. vm_compute. repeat split. Qed.

(** * Properties of [_convert_level] *)

Lemma level_names_entries n name :
  KronosLogger._LEVEL_NAMES !! n = Some name <->
  (n, name) ∈ [(50, "CRITICAL"); (40, "ERROR"); (30, "WARNING");
               (20, "INFO"); (10, "DEBUG"); (0, "NOTSET")].
Proof.
  unfold KronosLogger._LEVEL_NAMES.
  rewrite !lookup_insert_Some, lookup_empty, !elem_of_cons, elem_of_nil.
  split.
  - intros H. repeat (destruct H as [[<- <-]|[? H]]; [tauto|]). discriminate.
  - intros H. repeat (destruct H as [[= -> ->]|H]; [intuition (auto; lia)|]). contradiction.
Qed.

Lemma level_values_entries name n :
  KronosLogger._LEVEL_VALUES !! name = Some n <->
  (n, name) ∈ [(50, "CRITICAL"); (40, "ERROR"); (30, "WARNING");
               (20, "INFO"); (10, "DEBUG"); (0, "NOTSET")].
Proof.
  unfold KronosLogger._LEVEL_VALUES.
  rewrite !lookup_insert_Some, lookup_empty, !elem_of_cons, elem_of_nil.
  split.
  - intros H. repeat (destruct H as [[<- <-]|[? H]]; [tauto|]). discriminate.
  - intros H.
    repeat (destruct H as [[= -> ->]|H]; [intuition (auto; discriminate)|]). contradiction.
Qed.

Section ConvertLevel.
Variable upper : string -> string.

(** X16.  The two level tables are inverse to each other, and
    [_convert_level] goes through them: when [upper] leaves the six level
    names as they are, every name of [_LEVEL_NAMES] converts back to its
    level; whatever [upper] does, a string that converts yields the level
    named by its upper-case form, and a string whose upper-case form names
    no level raises [ValueError]. *)
Theorem convert_level_round_trip :
  map_Forall (fun _ name => upper name = name) KronosLogger._LEVEL_NAMES ->
  (forall n name,
      KronosLogger._LEVEL_NAMES !! n = Some name ->
      KronosLogger._convert_level upper (KronosLogger.LStr name) = Logger.Returns n)
  /\ (forall s n,
        KronosLogger._convert_level upper (KronosLogger.LStr s) = Logger.Returns n ->
        KronosLogger._LEVEL_NAMES !! n = Some (upper s))
  /\ (forall s,
        (forall n, KronosLogger._LEVEL_NAMES !! n <> Some (upper s)) ->
        exists text,
          KronosLogger._convert_level upper (KronosLogger.LStr s)
          = Logger.Raises (Logger.ValueError text)).
Proof.
  intros Hupper. split; [|split].
  - intros n name Hname. unfold KronosLogger._convert_level.
    rewrite (Hupper n name Hname).
    apply level_names_entries, level_values_entries in Hname. by rewrite Hname.
  - intros s n. unfold KronosLogger._convert_level.
    destruct (KronosLogger._LEVEL_VALUES !! upper s) as [v|] eqn:Hv; [|discriminate].
    intros [= <-]. by apply level_names_entries, level_values_entries.
  - intros s Hnone. unfold KronosLogger._convert_level.
    destruct (KronosLogger._LEVEL_VALUES !! upper s) as [v|] eqn:Hv; [|by eexists].
    exfalso. apply (Hnone v). by apply level_names_entries, level_values_entries.
Qed.

End ConvertLevel.

Lemma convert_level_round_trip_witness :
  map_Forall (fun _ name => upper_ascii name = name) KronosLogger._LEVEL_NAMES
  /\ (forall n name,
        KronosLogger._LEVEL_NAMES !! n = Some name ->
        KronosLogger._convert_level upper_ascii (KronosLogger.LStr name) = Logger.Returns n)
  /\ (forall s n,
        KronosLogger._convert_level upper_ascii (KronosLogger.LStr s) = Logger.Returns n ->
        KronosLogger._LEVEL_NAMES !! n = Some (upper_ascii s))
  /\ (forall s,
        (forall n, KronosLogger._LEVEL_NAMES !! n <> Some (upper_ascii s)) ->
        exists text,
          KronosLogger._convert_level upper_ascii (KronosLogger.LStr s)
          = Logger.Raises (Logger.ValueError text)).
Proof.
  assert (H : map_Forall (fun _ name => upper_ascii name = name)
                         KronosLogger._LEVEL_NAMES).
  { intros n name Hname. apply level_names_entries in Hname.
    repeat (apply elem_of_cons in Hname as [[= -> ->]|Hname]; [reflexivity|]).
    by apply elem_of_nil in Hname. }
  split; [exact H|]. apply (convert_level_round_trip upper_ascii H).
Defined.

(** Lower-case and mixed-case names convert; unknown names do not. *)
Example convert_level_examples :
  KronosLogger._convert_level upper_ascii (KronosLogger.LStr "info") = Logger.Returns 20
  /\ KronosLogger._convert_level upper_ascii (KronosLogger.LStr "Debug") = Logger.Returns 10
  /\ KronosLogger._convert_level upper_ascii (KronosLogger.LInt 25) = Logger.Returns 25
  /\ KronosLogger._convert_level upper_ascii (KronosLogger.LStr "verbose")
     = Logger.Raises (Logger.ValueError
         "Invalid log level string: verbose. Valid levels are: CRITICAL, ERROR, WARNING, INFO, DEBUG, NOTSET").
Proof. repeat split. Qed.
